(** * Sentiment_analysiss: the training harness [src/train/trainer.py]

    A shallow embedding of the policy logic of [Trainer]: the epoch loop
    with early stopping and checkpointing, the loss composition of a
    training batch, class-weight estimation, the Mixup / CutMix
    augmentations and the final evaluation phase.

    Numbers.  Scalar losses and metrics are Python floats; the loop only
    compares and stores them, so they are modelled by [pyfloat], exact
    rationals extended with the three special values a float can take
    (the code itself starts from [float('inf')]).  The entries of the
    image and label tensors are [pyfloat]s too: [nan] and the infinities
    behave as in IEEE 754, the rounding of a product or sum is idealised.
    Where rounding decides the result (the integers that [_rand_bbox]
    truncates a float product to, the class weights as they are
    returned) the operations are those of binary64, bit for bit. *)

From Stdlib Require Import ZArith QArith List String Bool Lia Lqa DecimalString.
From Stdlib Require Import SpecFloat.
From Stdlib Require Import Permutation.
Import ListNotations.

Set Implicit Arguments.

(** ** Python floats, as far as the training loop looks at them *)

Module PyFloat.

Inductive pyfloat : Type :=
| NaN
| NegInf
| Fin (q : Q)
| PosInf.

Definition Qltb (a b : Q) : bool := negb (Qle_bool b a).

(** [x < y] on floats: every comparison with [nan] is [False]. *)
Definition flt (x y : pyfloat) : bool :=
  match x, y with
  | NaN, _ => false
  | _, NaN => false
  | NegInf, NegInf => false
  | NegInf, _ => true
  | Fin _, NegInf => false
  | Fin a, Fin b => Qltb a b
  | Fin _, PosInf => true
  | PosInf, _ => false
  end.

Definition is_finite (x : pyfloat) : bool :=
  match x with Fin _ => true | _ => false end.

(** Sign of a rational, for the products with an infinity. *)
Definition Qsgn (a : Q) : Z := Z.sgn (Qnum a).

(** [x + y]: [inf + (-inf)] is [nan]. *)
Definition fadd (x y : pyfloat) : pyfloat :=
  match x, y with
  | NaN, _ | _, NaN => NaN
  | PosInf, NegInf | NegInf, PosInf => NaN
  | PosInf, _ | _, PosInf => PosInf
  | NegInf, _ | _, NegInf => NegInf
  | Fin a, Fin b => Fin (a + b)
  end.

Definition inf_of_sign (s : Z) : pyfloat :=
  match s with
  | Z0 => NaN
  | Zpos _ => PosInf
  | Zneg _ => NegInf
  end.

(** [x * y]: [0 * inf] is [nan]. *)
Definition fmul (x y : pyfloat) : pyfloat :=
  match x, y with
  | NaN, _ | _, NaN => NaN
  | Fin a, Fin b => Fin (a * b)
  | Fin a, PosInf | PosInf, Fin a => inf_of_sign (Qsgn a)
  | Fin a, NegInf | NegInf, Fin a => inf_of_sign (- Qsgn a)
  | PosInf, PosInf | NegInf, NegInf => PosInf
  | PosInf, NegInf | NegInf, PosInf => NegInf
  end.

Lemma Qltb_lt (a b : Q) : Qltb a b = true <-> (a < b)%Q.
Proof.
  unfold Qltb. rewrite negb_true_iff.
  split; intro H.
  - apply Qnot_le_lt. intro Hle. apply Qle_bool_iff in Hle. congruence.
  - destruct (Qle_bool b a) eqn:E; [|reflexivity].
    apply Qle_bool_iff in E. exfalso. exact (Qlt_not_le _ _ H E).
Qed.

Lemma Qltb_ge (a b : Q) : Qltb a b = false <-> (b <= a)%Q.
Proof.
  unfold Qltb. rewrite negb_false_iff. apply Qle_bool_iff.
Qed.

Lemma flt_irrefl (x : pyfloat) : flt x x = false.
Proof.
  destruct x; simpl; try reflexivity.
  apply Qltb_ge. apply Qle_refl.
Qed.

Lemma flt_trans (x y z : pyfloat) :
  flt x y = true -> flt y z = true -> flt x z = true.
Proof.
  destruct x, y, z; simpl; try congruence.
  rewrite !Qltb_lt. apply Qlt_trans.
Qed.

(** On values that are not [nan], [<] is a strict weak order. *)
Lemma flt_cotrans (x y z : pyfloat) :
  z <> NaN -> flt x y = true -> flt z y = false -> flt x z = true.
Proof.
  destruct x, y, z; simpl; try congruence.
  rewrite Qltb_ge, !Qltb_lt. intros _ H1 H2.
  eapply Qlt_le_trans; eassumption.
Qed.

Lemma flt_fin_inf (x : pyfloat) : is_finite x = true -> flt x PosInf = true.
Proof. destruct x; simpl; congruence. Qed.

End PyFloat.

(** ** The epoch loop of [Trainer.train] *)

Module TrainLoop.
Import PyFloat.

Local Open Scope Z_scope.

(** The fields of [Config] (src/config/config.py) that [train] and
    [evaluate] read.  Their values are not fixed here. *)
Record Config : Type := mkConfig {
  NUM_EPOCHS : Z;
  EARLY_STOP_PATIENCE : Z;
  NUM_CLASSES : Z
}.

(** Calls that leave the trainer, in the order they are made.  A
    checkpoint is named by its file inside [MODEL_SAVE_PATH]. *)
Inductive event : Type :=
| EvSaveModel (file : string)
| EvLoadModel (file : string)
| EvSaveTrainingCurves
| EvAnalyzeModalWeights (epoch : nat)
| EvEvaluate (data_name : string).

Definition best_model_pt : string := "best_model.pt"%string.

(** [f"model_epoch_{epoch+1}.pt"] *)
Definition model_epoch_pt (epoch : nat) : string :=
  ("model_epoch_" ++ NilEmpty.string_of_uint (Nat.to_uint (epoch + 1)) ++ ".pt")%string.

(** What [evaluate] returns. *)
Record eval_results : Type := mkEval {
  accuracy : pyfloat;
  f1 : pyfloat;
  auc : pyfloat;
  predictions : list Z;
  labels : list Z;
  probabilities : list (list pyfloat)
}.

(** What [train] returns. *)
Record train_results : Type := mkResults {
  r_train_losses : list pyfloat;
  r_val_losses : list pyfloat;
  r_train_accuracies : list pyfloat;
  r_val_accuracies : list pyfloat;
  r_alpha_history : list pyfloat;
  test_results : eval_results;
  noise_test_results : eval_results
}.

(** Which epochs improve on the best validation loss seen so far,
    [best] being the best before the first of them. *)
Fixpoint improve_flags (best : pyfloat) (vs : list pyfloat) : list bool :=
  match vs with
  | [] => []
  | v :: rest =>
      if flt v best then true :: improve_flags v rest
      else false :: improve_flags best rest
  end.

Fixpoint take_while {A : Type} (p : A -> bool) (l : list A) : list A :=
  match l with
  | [] => []
  | x :: r => if p x then x :: take_while p r else []
  end.

(** How many epochs in a row, up to and including the latest, did not
    improve. *)
Definition trailing_failures (flags : list bool) : nat :=
  List.length (take_while negb (rev flags)).

(** The bookkeeping of one epoch on the pair (best loss, counter). *)
Definition bookkeep (bc : pyfloat * Z) (v : pyfloat) : pyfloat * Z :=
  if flt v (fst bc) then (v, 0) else (fst bc, snd bc + 1).

(** [range(n)]: empty when [n <= 0]. *)
Definition range (n : Z) : list nat := seq 0 (Z.to_nat n).

(** *** Facts about the bookkeeping, apart from the trainer *)

Lemma last_cons_default {A : Type} (l : list A) (x d : A) :
  last (x :: l) d = last l x.
Proof.
  revert x d. induction l as [|y l IH]; intros x d; [reflexivity|].
  change (last (x :: y :: l) d) with (last (y :: l) d).
  rewrite !IH. reflexivity.
Qed.

Lemma trailing_failures_snoc (flags : list bool) (f : bool) :
  trailing_failures (flags ++ [f])
  = if f then 0%nat else S (trailing_failures flags).
Proof.
  unfold trailing_failures. rewrite rev_unit. destruct f; reflexivity.
Qed.

Lemma bookkeep_fst_counter (l : list pyfloat) (b : pyfloat) (c c' : Z) :
  fst (fold_left bookkeep l (b, c)) = fst (fold_left bookkeep l (b, c')).
Proof.
  revert b c c'. induction l as [|x l IH]; intros b c c'; [reflexivity|].
  cbn [fold_left]. unfold bookkeep at 2 4. cbn [fst snd].
  destruct (flt x b); [reflexivity | apply IH].
Qed.

Lemma improve_flags_snoc (l : list pyfloat) (b v : pyfloat) (c : Z) :
  improve_flags b (l ++ [v])
  = improve_flags b l ++ [flt v (fst (fold_left bookkeep l (b, c)))].
Proof.
  revert b c. induction l as [|x l IH]; intros b c.
  - cbn. destruct (flt v b); reflexivity.
  - cbn [app improve_flags fold_left]. unfold bookkeep at 2. cbn [fst snd].
    destruct (flt x b); cbn [app]; f_equal; apply IH.
Qed.

Lemma counter_trailing (l : list pyfloat) (b : pyfloat) :
  snd (fold_left bookkeep l (b, 0))
  = Z.of_nat (trailing_failures (improve_flags b l)).
Proof.
  induction l as [|v l IH] using rev_ind; [reflexivity|].
  rewrite fold_left_app, (improve_flags_snoc l b v 0), trailing_failures_snoc.
  cbn [fold_left]. unfold bookkeep at 1.
  destruct (flt v (fst (fold_left bookkeep l (b, 0)))); cbn [snd]; [reflexivity|].
  rewrite IH. lia.
Qed.

Lemma firstn_snoc_nth {A : Type} (l : list A) (k : nat) (x : A) :
  nth_error l k = Some x -> firstn (S k) l = firstn k l ++ [x].
Proof.
  revert k. induction l as [|y l IH]; intros k H.
  - destruct k; discriminate.
  - destruct k as [|k]; cbn in H.
    + inversion H. reflexivity.
    + cbn [firstn app]. f_equal. apply IH, H.
Qed.

Lemma nth_error_last_default {A : Type} (l : list A) (d : A) :
  l <> [] -> nth_error l (List.length l - 1) = Some (last l d).
Proof.
  induction l as [|x l IH]; [congruence|]. intros _.
  destruct l as [|y l]; [reflexivity|].
  change (last (x :: y :: l) d) with (last (y :: l) d).
  rewrite <- IH by congruence.
  cbn [List.length]. replace (S (S (List.length l)) - 1)%nat
    with (S (S (List.length l) - 1)) by lia.
  reflexivity.
Qed.

Lemma best_model_pt_not_epoch (epoch : nat) : best_model_pt <> model_epoch_pt epoch.
Proof. unfold best_model_pt, model_epoch_pt. cbn. discriminate. Qed.

Lemma skipn_length_app {A : Type} (l l' : list A) :
  skipn (List.length l) (l ++ l') = l'.
Proof. induction l; [reflexivity | assumption]. Qed.

(** Among losses that are numbers below [+inf], being below the running
    best is being below every loss seen. *)
Lemma below_running_best (l : list pyfloat) (b v : pyfloat) (c : Z) :
  Forall (fun x => flt x PosInf = true) l ->
  (flt v (fst (fold_left bookkeep l (b, c))) = true <->
   flt v b = true /\ Forall (fun x => flt v x = true) l).
Proof.
  revert b c. induction l as [|x l IH]; intros b c Hl.
  - cbn. split; [intro H; split; [exact H | constructor] | tauto].
  - inversion Hl as [|? ? Hx Hl']; subst.
    cbn [fold_left]. unfold bookkeep at 2. cbn [fst snd].
    assert (Hnan : x <> NaN) by (intros ->; discriminate).
    destruct (flt x b) eqn:Hxb; rewrite (IH _ _ Hl'); split.
    + intros [H1 H2]. split; [eapply flt_trans; eassumption|].
      constructor; assumption.
    + intros [_ H]. inversion H; subst. tauto.
    + intros [H1 H2]. split; [exact H1|]. constructor; [|exact H2].
      eapply flt_cotrans; eassumption.
    + intros [H1 H]. inversion H; subst. tauto.
Qed.

Lemma range_nth (n : Z) (k epoch : nat) :
  nth_error (range n) k = Some epoch -> epoch = k.
Proof.
  unfold range. intro H.
  assert (Hk : (k < List.length (seq 0 (Z.to_nat n)))%nat)
    by (apply nth_error_Some; congruence).
  rewrite length_seq in Hk.
  apply (nth_error_nth _ _ 0%nat) in H. rewrite seq_nth in H by exact Hk.
  cbn in H. congruence.
Qed.

Section Loop.

(** The collaborators the loop drives but does not look into.
    [learner] is everything a pass over the training data changes: model
    weights, optimizer and scheduler state, random generators.  [disk]
    is the checkpoint directory. *)
Variables learner disk dataset : Type.

(** One pass over the training loader: the new learner, the average
    loss, the accuracy and the modality weights seen. *)
Variable _train_epoch : learner -> learner * (pyfloat * pyfloat * list pyfloat).
(** One pass over the validation loader: loss, accuracy, macro F1. *)
Variable _validate : learner -> pyfloat * pyfloat * pyfloat.
(** [utils.save_model] and [utils.load_model]; loading can raise. *)
Variable save_model : learner -> string -> disk -> disk.
Variable load_model : learner -> string -> disk -> option learner.
(** The forward passes of [evaluate] over a loader: predicted classes,
    labels and class probabilities. *)
Variable predict : learner -> dataset -> list Z * list Z * list (list pyfloat).
(** [sklearn.metrics]; [roc_auc_score] can raise. *)
Variable accuracy_score : list Z -> list Z -> pyfloat.
Variable f1_score_macro : list Z -> list Z -> pyfloat.
Variable roc_auc_score_ovr_macro : Z -> list Z -> list (list pyfloat) -> option pyfloat.

Variable config : Config.

(** The attributes of [self] that [train] touches, with the checkpoint
    directory and the calls made so far. *)
Record Trainer : Type := mkTrainer {
  model : learner;
  test_loader : dataset;
  noise_test_loader : dataset;
  best_val_loss : pyfloat;
  patience_counter : Z;
  train_losses : list pyfloat;
  val_losses : list pyfloat;
  train_accuracies : list pyfloat;
  val_accuracies : list pyfloat;
  alpha_history : list pyfloat;
  files : disk;
  log : list event
}.

(** The bookkeeping part of [__init__]. *)
Definition init (m : learner) (test noise : dataset) (d : disk) : Trainer :=
  {| model := m; test_loader := test; noise_test_loader := noise;
     best_val_loss := PosInf; patience_counter := 0;
     train_losses := []; val_losses := [];
     train_accuracies := []; val_accuracies := [];
     alpha_history := [];
     files := d; log := [] |}.

(** Lines 240-250: train, validate, record the statistics. *)
Definition record_epoch (t : Trainer) : Trainer * pyfloat :=
  let '(m1, (train_loss, train_acc, alpha_values)) := _train_epoch (model t) in
  let '(val_loss, val_acc, _) := _validate m1 in
  ({| model := m1;
      test_loader := test_loader t; noise_test_loader := noise_test_loader t;
      best_val_loss := best_val_loss t;
      patience_counter := patience_counter t;
      train_losses := train_losses t ++ [train_loss];
      val_losses := val_losses t ++ [val_loss];
      train_accuracies := train_accuracies t ++ [train_acc];
      val_accuracies := val_accuracies t ++ [val_acc];
      alpha_history := alpha_history t ++ alpha_values;
      files := files t; log := log t |}, val_loss).

(** Lines 266-269: a new best validation loss. *)
Definition new_best (val_loss : pyfloat) (t : Trainer) : Trainer :=
  {| model := model t;
     test_loader := test_loader t; noise_test_loader := noise_test_loader t;
     best_val_loss := val_loss;
     patience_counter := 0;
     train_losses := train_losses t; val_losses := val_losses t;
     train_accuracies := train_accuracies t; val_accuracies := val_accuracies t;
     alpha_history := alpha_history t;
     files := save_model (model t) best_model_pt (files t);
     log := log t ++ [EvSaveModel best_model_pt] |}.

(** Line 272. *)
Definition no_improvement (t : Trainer) : Trainer :=
  {| model := model t;
     test_loader := test_loader t; noise_test_loader := noise_test_loader t;
     best_val_loss := best_val_loss t;
     patience_counter := patience_counter t + 1;
     train_losses := train_losses t; val_losses := val_losses t;
     train_accuracies := train_accuracies t; val_accuracies := val_accuracies t;
     alpha_history := alpha_history t;
     files := files t; log := log t |}.

(** Lines 279-289: the per-epoch checkpoint, the curves, the histogram. *)
Definition end_of_epoch (epoch : nat) (t : Trainer) : Trainer :=
  {| model := model t;
     test_loader := test_loader t; noise_test_loader := noise_test_loader t;
     best_val_loss := best_val_loss t;
     patience_counter := patience_counter t;
     train_losses := train_losses t; val_losses := val_losses t;
     train_accuracies := train_accuracies t; val_accuracies := val_accuracies t;
     alpha_history := alpha_history t;
     files := save_model (model t) (model_epoch_pt epoch) (files t);
     log := log t ++ [EvSaveModel (model_epoch_pt epoch);
                      EvSaveTrainingCurves;
                      EvAnalyzeModalWeights epoch] |}.

(** The body of the [for] loop; the flag says that it ended in [break]. *)
Definition epoch_body (epoch : nat) (t : Trainer) : Trainer * bool :=
  let '(t1, val_loss) := record_epoch t in
  if flt val_loss (best_val_loss t1) then
    (end_of_epoch epoch (new_best val_loss t1), false)
  else
    let t2 := no_improvement t1 in
    if EARLY_STOP_PATIENCE config <=? patience_counter t2 then (t2, true)
    else (end_of_epoch epoch t2, false).

(** [for epoch in epochs: ...], with the flag of the last body run. *)
Fixpoint epoch_loop (epochs : list nat) (t : Trainer) : Trainer * bool :=
  match epochs with
  | [] => (t, false)
  | epoch :: rest =>
      let '(t', stop) := epoch_body epoch t in
      if stop then (t', true) else epoch_loop rest t'
  end.

(** What each body that the loop runs returns, oldest first. *)
Fixpoint epoch_runs (epochs : list nat) (t : Trainer) : list (Trainer * bool) :=
  match epochs with
  | [] => []
  | epoch :: rest =>
      let r := epoch_body epoch t in
      r :: (if snd r then [] else epoch_runs rest (fst r))
  end.

(** The trainer after each epoch that the loop runs. *)
Definition epoch_states (epochs : list nat) (t : Trainer) : list Trainer :=
  map fst (epoch_runs epochs t).

(** [evaluate]: the AUC stays [0] when [roc_auc_score] raises. *)
Definition evaluate (m : learner) (data_loader : dataset) : eval_results :=
  let '(all_preds, all_labels, all_probs) := predict m data_loader in
  {| accuracy := accuracy_score all_labels all_preds;
     f1 := f1_score_macro all_labels all_preds;
     auc := match roc_auc_score_ovr_macro (NUM_CLASSES config) all_labels all_probs with
            | Some a => a
            | None => Fin 0
            end;
     predictions := all_preds;
     labels := all_labels;
     probabilities := all_probs |}.

Definition test_name : string := "测试集"%string.
Definition noise_test_name : string := "噪声测试集"%string.

(** [train]: [None] when [load_model] raises. *)
Definition train (t : Trainer) : option (Trainer * train_results) :=
  let t1 := fst (epoch_loop (range (NUM_EPOCHS config)) t) in
  match load_model (model t1) best_model_pt (files t1) with
  | None => None
  | Some best =>
      let test := evaluate best (test_loader t1) in
      let noise := evaluate best (noise_test_loader t1) in
      Some ({| model := best;
               test_loader := test_loader t1;
               noise_test_loader := noise_test_loader t1;
               best_val_loss := best_val_loss t1;
               patience_counter := patience_counter t1;
               train_losses := train_losses t1; val_losses := val_losses t1;
               train_accuracies := train_accuracies t1;
               val_accuracies := val_accuracies t1;
               alpha_history := alpha_history t1;
               files := files t1;
               log := log t1 ++ [EvLoadModel best_model_pt;
                                 EvEvaluate test_name;
                                 EvEvaluate noise_test_name] |},
            {| r_train_losses := train_losses t1;
               r_val_losses := val_losses t1;
               r_train_accuracies := train_accuracies t1;
               r_val_accuracies := val_accuracies t1;
               r_alpha_history := alpha_history t1;
               test_results := test;
               noise_test_results := noise |})
  end.

(** *** The run, seen from outside *)

(** The validation loss an epoch recorded: the entry it appended. *)
Definition epoch_val_loss (t : Trainer) : pyfloat := last (val_losses t) NaN.

(** The calls made since [before]. *)
Definition calls_since (before after : Trainer) : list event :=
  skipn (List.length (log before)) (log after).

(** *** One epoch *)

Lemma epoch_body_spec (epoch : nat) (t t' : Trainer) (stop : bool) :
  epoch_body epoch t = (t', stop) ->
  exists v,
    val_losses t' = val_losses t ++ [v] /\
    (best_val_loss t', patience_counter t')
      = bookkeep (best_val_loss t, patience_counter t) v /\
    stop = negb (flt v (best_val_loss t))
           && (EARLY_STOP_PATIENCE config <=? patience_counter t') /\
    log t' = log t
               ++ (if flt v (best_val_loss t) then [EvSaveModel best_model_pt] else [])
               ++ (if stop then []
                   else [EvSaveModel (model_epoch_pt epoch);
                         EvSaveTrainingCurves;
                         EvAnalyzeModalWeights epoch]).
Proof.
  unfold epoch_body, record_epoch, bookkeep.
  destruct (_train_epoch (model t)) as [m1 [[train_loss train_acc] alpha_values]].
  destruct (_validate m1) as [[val_loss val_acc] val_f1].
  cbn [best_val_loss patience_counter fst snd].
  intro H. exists val_loss.
  destruct (flt val_loss (best_val_loss t)) eqn:Hlt.
  - inversion H; subst; clear H. cbn. rewrite <- app_assoc. auto.
  - cbn [no_improvement patience_counter] in H.
    destruct (EARLY_STOP_PATIENCE config <=? patience_counter t + 1) eqn:Hp;
      inversion H; subst; clear H; cbn; rewrite ?Hp, ?app_nil_r; auto.
Qed.

Lemma epoch_val_loss_app (t : Trainer) (l : list pyfloat) (v : pyfloat) :
  val_losses t = l ++ [v] -> epoch_val_loss t = v.
Proof. unfold epoch_val_loss. intros ->. apply last_last. Qed.

(** *** The sequence of epochs *)

Lemma epoch_runs_length (epochs : list nat) (t : Trainer) :
  (List.length (epoch_runs epochs t) <= List.length epochs)%nat.
Proof.
  revert t. induction epochs as [|e rest IH]; intro t; simpl; [lia|].
  destruct (snd (epoch_body e t)); simpl; [lia|].
  specialize (IH (fst (epoch_body e t))). lia.
Qed.

Lemma epoch_loop_runs (epochs : list nat) (t : Trainer) :
  epoch_loop epochs t = last (epoch_runs epochs t) (t, false).
Proof.
  revert t. induction epochs as [|e rest IH]; intro t; [reflexivity|].
  cbn [epoch_loop epoch_runs]. rewrite last_cons_default.
  destruct (epoch_body e t) as [t' stop]. cbn [fst snd].
  destruct stop; [reflexivity|]. apply IH.
Qed.

(** The [k]-th run is the body applied to the state before it; a run
    that breaks is the last one, a run that does not is followed by the
    next epoch if there is one. *)
Lemma epoch_runs_step (epochs : list nat) (t : Trainer) (k : nat)
      (prev : Trainer) (r : Trainer * bool) :
  nth_error (t :: epoch_states epochs t) k = Some prev ->
  nth_error (epoch_runs epochs t) k = Some r ->
  exists epoch,
    nth_error epochs k = Some epoch /\
    r = epoch_body epoch prev /\
    (snd r = true -> List.length (epoch_runs epochs t) = S k) /\
    (snd r = false -> (S k < List.length epochs)%nat ->
     (S k < List.length (epoch_runs epochs t))%nat).
Proof.
  unfold epoch_states.
  revert t k. induction epochs as [|e rest IH]; intros t k Hp Hr.
  - destruct k; discriminate.
  - cbn [epoch_runs map] in *.
    destruct k as [|k].
    + cbn in Hp, Hr. inversion Hp; inversion Hr; subst. exists e.
      split; [reflexivity|]. split; [reflexivity|].
      split; intro Hs; rewrite Hs; [reflexivity|].
      intro Hk. cbn [List.length] in *.
      destruct rest as [|e' rest']; cbn in *; [lia|].
      destruct (snd (epoch_body e' (fst (epoch_body e prev)))); cbn; lia.
    + cbn [nth_error] in Hp, Hr.
      destruct (snd (epoch_body e t)) eqn:Hs.
      { destruct k; discriminate. }
      destruct (IH _ _ Hp Hr) as (epoch & He & Hb & Hstop & Hgo).
      exists epoch. cbn [nth_error List.length].
      split; [exact He|]. split; [exact Hb|]. split.
      * intro H. rewrite (Hstop H). reflexivity.
      * intros H Hk. apply Hgo in H; lia.
Qed.

(** *** The counter counts the failures in a row *)

(** After its [k]-th epoch the trainer holds what the bookkeeping makes
    of the validation losses recorded so far. *)
Lemma epoch_runs_bookkeep (epochs : list nat) (t : Trainer) (k : nat)
      (r : Trainer * bool) :
  nth_error (epoch_runs epochs t) k = Some r ->
  (best_val_loss (fst r), patience_counter (fst r))
  = fold_left bookkeep
      (firstn (S k) (map epoch_val_loss (epoch_states epochs t)))
      (best_val_loss t, patience_counter t).
Proof.
  revert r. induction k as [|k IH]; intros r Hr.
  - destruct (epoch_runs_step epochs t 0 (prev := t) eq_refl Hr)
      as (epoch & _ & Hb & _).
    symmetry in Hb. rewrite (surjective_pairing r) in Hb.
    destruct (epoch_body_spec _ _ Hb) as (v & Hv & Hbk & _).
    unfold epoch_states.
    destruct (epoch_runs epochs t) as [|r0 rs]; [discriminate|].
    cbn in Hr. inversion Hr; subst r0. cbn.
    rewrite (epoch_val_loss_app _ _ _ Hv). exact Hbk.
  - destruct (nth_error (epoch_runs epochs t) k) as [r'|] eqn:Hk.
    2:{ apply nth_error_None in Hk.
        assert (nth_error (epoch_runs epochs t) (S k) <> None) by congruence.
        apply nth_error_Some in H. lia. }
    assert (Hprev : nth_error (t :: epoch_states epochs t) (S k) = Some (fst r')).
    { cbn. unfold epoch_states. rewrite nth_error_map, Hk. reflexivity. }
    destruct (epoch_runs_step epochs t (S k) Hprev Hr) as (epoch & _ & Hb & _).
    symmetry in Hb. rewrite (surjective_pairing r) in Hb.
    destruct (epoch_body_spec _ _ Hb) as (v & Hv & Hbk & _).
    assert (Hnth : nth_error (map epoch_val_loss (epoch_states epochs t)) (S k)
                   = Some v).
    { unfold epoch_states. rewrite !nth_error_map, Hr. cbn.
      rewrite (epoch_val_loss_app _ _ _ Hv). reflexivity. }
    rewrite (firstn_snoc_nth _ _ Hnth), fold_left_app, <- (IH r' eq_refl).
    exact Hbk.
Qed.

Lemma epoch_states_nth (epochs : list nat) (t : Trainer) (k : nat) (s : Trainer) :
  nth_error (epoch_states epochs t) k = Some s ->
  exists r, nth_error (epoch_runs epochs t) k = Some r /\ fst r = s.
Proof.
  unfold epoch_states. rewrite nth_error_map.
  destruct (nth_error (epoch_runs epochs t) k) as [r|]; [|discriminate].
  cbn. intro H. inversion H. eauto.
Qed.

(** The state before the [k]-th epoch, when that epoch runs: the
    trainer the loop started from, or the result of an epoch that did
    not break. *)
Lemma epoch_runs_prev (epochs : list nat) (t : Trainer) (k : nat)
      (r : Trainer * bool) :
  nth_error (epoch_runs epochs t) k = Some r ->
  exists prev,
    nth_error (t :: epoch_states epochs t) k = Some prev /\
    (k = 0%nat /\ prev = t \/
     exists k' r', k = S k' /\ nth_error (epoch_runs epochs t) k' = Some r' /\
                   fst r' = prev /\ snd r' = false).
Proof.
  intro Hr. destruct k as [|k].
  - exists t. split; [reflexivity | left; split; reflexivity].
  - destruct (nth_error (epoch_runs epochs t) k) as [r'|] eqn:Hk.
    2:{ apply nth_error_None in Hk.
        assert (H : nth_error (epoch_runs epochs t) (S k) <> None) by congruence.
        apply nth_error_Some in H. lia. }
    assert (Hprev' : exists p, nth_error (t :: epoch_states epochs t) k = Some p).
    { destruct k; [eexists; reflexivity|].
      cbn. unfold epoch_states. rewrite nth_error_map.
      destruct (nth_error (epoch_runs epochs t) k) eqn:E; [eexists; reflexivity|].
      apply nth_error_None in E.
      assert (H : nth_error (epoch_runs epochs t) (S k) <> None) by congruence.
      apply nth_error_Some in H. lia. }
    destruct Hprev' as [p Hp].
    destruct (epoch_runs_step epochs t k Hp Hk) as (_ & _ & _ & Hstop & _).
    exists (fst r'). split.
    + cbn. unfold epoch_states. rewrite nth_error_map, Hk. reflexivity.
    + right. exists k, r'. repeat split; auto.
      destruct (snd r') eqn:Hs; [|reflexivity].
      specialize (Hstop eq_refl).
      assert (H : nth_error (epoch_runs epochs t) (S k) <> None) by congruence.
      apply nth_error_Some in H. lia.
Qed.

(** From a counter below the patience, the counter stays within the
    patience, and an epoch breaks exactly when it reaches it. *)
Lemma epoch_runs_counter_bounds (epochs : list nat) (t : Trainer) :
  0 <= patience_counter t < EARLY_STOP_PATIENCE config ->
  forall k r,
    nth_error (epoch_runs epochs t) k = Some r ->
    0 <= patience_counter (fst r) <= EARLY_STOP_PATIENCE config /\
    (snd r = true <-> patience_counter (fst r) = EARLY_STOP_PATIENCE config).
Proof.
  intros Ht k. induction k as [|k IH]; intros r Hr;
    destruct (epoch_runs_prev epochs t _ Hr) as (prev & Hp & Hcase);
    destruct (epoch_runs_step epochs t _ Hp Hr) as (epoch & _ & Hb & _);
    symmetry in Hb; rewrite (surjective_pairing r) in Hb;
    destruct (epoch_body_spec _ _ Hb) as (v & _ & Hbk & Hstop & _);
    assert (Hprev : 0 <= patience_counter prev < EARLY_STOP_PATIENCE config).
  1:{ destruct Hcase as [[_ ->]|(k' & ? & ? & _)]; [exact Ht | discriminate]. }
  2:{ destruct Hcase as [[? _]|(k' & r' & Hk & Hr' & <- & Hs)]; [discriminate|].
      inversion Hk; subst k'.
      destruct (IH _ Hr') as [Hb' Hiff].
      destruct (Z.eq_dec (patience_counter (fst r')) (EARLY_STOP_PATIENCE config))
        as [E|E]; [apply Hiff in E; congruence | lia]. }
  all: unfold bookkeep in Hbk; cbn [fst snd] in Hbk; rewrite Hstop;
    destruct (flt v (best_val_loss prev)); inversion Hbk as [[Hbest Hcnt]];
    rewrite ?Hcnt; cbn [negb andb];
    [ split; [lia | split; [discriminate | lia]]
    | split; [lia | rewrite Z.leb_le; lia] ].
Qed.

(** *** Early stopping *)

(** C1, for a patience of at least one and a trainer whose counter is at
    [0] (as [__init__] leaves it): the loop runs at most [NUM_EPOCHS]
    epochs; each epoch resets the counter to [0] when its validation
    loss is strictly below the best so far and adds [1] otherwise; the
    counter is then the number of epochs in a row that did not improve,
    it never exceeds [EARLY_STOP_PATIENCE] and is below it after every
    epoch but the last one run; the loop breaks exactly when that number
    reaches [EARLY_STOP_PATIENCE], and runs all [NUM_EPOCHS] epochs when
    it does not break. *)
Theorem early_stopping_patience (t : Trainer) :
  1 <= EARLY_STOP_PATIENCE config ->
  patience_counter t = 0 ->
  let epochs := range (NUM_EPOCHS config) in
  let sts := epoch_states epochs t in
  let vs := map epoch_val_loss sts in
  let stopped := snd (epoch_loop epochs t) in
  (List.length sts <= Z.to_nat (NUM_EPOCHS config))%nat /\
  (forall k prev cur,
      nth_error (t :: sts) k = Some prev ->
      nth_error sts k = Some cur ->
      patience_counter cur
      = if flt (epoch_val_loss cur) (best_val_loss prev) then 0
        else patience_counter prev + 1) /\
  (forall k s,
      nth_error sts k = Some s ->
      patience_counter s
      = Z.of_nat (trailing_failures
                    (improve_flags (best_val_loss t) (firstn (S k) vs))) /\
      patience_counter s <= EARLY_STOP_PATIENCE config /\
      ((S k < List.length sts)%nat ->
       patience_counter s < EARLY_STOP_PATIENCE config)) /\
  (stopped = true <->
   Z.of_nat (trailing_failures (improve_flags (best_val_loss t) vs))
   = EARLY_STOP_PATIENCE config) /\
  (stopped = false -> List.length sts = Z.to_nat (NUM_EPOCHS config)).
Proof.
  intros HP Hc epochs sts vs stopped.
  assert (Ht : 0 <= patience_counter t < EARLY_STOP_PATIENCE config) by lia.
  assert (Hlen : List.length epochs = Z.to_nat (NUM_EPOCHS config))
    by apply length_seq.
  assert (Hsts : List.length sts = List.length (epoch_runs epochs t))
    by apply length_map.
  assert (Hcount : forall k r, nth_error (epoch_runs epochs t) k = Some r ->
            patience_counter (fst r)
            = Z.of_nat (trailing_failures
                          (improve_flags (best_val_loss t) (firstn (S k) vs)))).
  { intros k r Hr. pose proof (epoch_runs_bookkeep epochs t k Hr) as Hbk.
    rewrite Hc in Hbk. fold sts vs in Hbk.
    rewrite <- counter_trailing, <- Hbk. reflexivity. }
  assert (Hlast : epoch_runs epochs t <> [] ->
            nth_error (epoch_runs epochs t) (List.length sts - 1)
            = Some (epoch_loop epochs t)).
  { intro Hne. rewrite Hsts, epoch_loop_runs. apply nth_error_last_default, Hne. }
  split; [rewrite Hsts, <- Hlen; apply epoch_runs_length|].
  split.
  { intros k prev cur Hp Hcur.
    destruct (epoch_states_nth _ _ _ Hcur) as (r & Hr & <-).
    destruct (epoch_runs_step epochs t k Hp Hr) as (epoch & _ & Hb & _).
    symmetry in Hb. rewrite (surjective_pairing r) in Hb.
    destruct (epoch_body_spec _ _ Hb) as (v & Hv & Hbk & _).
    rewrite (epoch_val_loss_app _ _ _ Hv).
    unfold bookkeep in Hbk. cbn [fst snd] in Hbk.
    destruct (flt v (best_val_loss prev)); inversion Hbk; reflexivity. }
  split.
  { intros k s Hs.
    destruct (epoch_states_nth _ _ _ Hs) as (r & Hr & <-).
    destruct (epoch_runs_counter_bounds epochs t Ht k Hr) as [Hb Hiff].
    split; [apply Hcount, Hr|]. split; [lia|].
    intro Hk.
    destruct (Z.eq_dec (patience_counter (fst r)) (EARLY_STOP_PATIENCE config))
      as [E|E]; [|lia].
    apply Hiff in E.
    destruct (epoch_runs_prev epochs t _ Hr) as (prev & Hp & _).
    destruct (epoch_runs_step epochs t k Hp Hr) as (_ & _ & _ & Hstop & _).
    specialize (Hstop E). lia. }
  assert (Hcase : epoch_runs epochs t = [] \/ epoch_runs epochs t <> [])
    by (destruct (epoch_runs epochs t); [left; reflexivity | right; discriminate]).
  destruct Hcase as [Hruns|Hne].
  - assert (Hnil : sts = []) by (unfold sts, epoch_states; rewrite Hruns; reflexivity).
    assert (Hstopped : stopped = false)
      by (unfold stopped; rewrite epoch_loop_runs, Hruns; reflexivity).
    rewrite Hstopped. unfold vs. rewrite Hnil. cbn.
    split; [split; [discriminate | lia]|]. intros _.
    rewrite <- Hlen. destruct epochs; [reflexivity | discriminate].
  - specialize (Hlast Hne).
    destruct (epoch_runs_counter_bounds epochs t Ht _ Hlast) as [Hb Hiff].
    assert (Hpos : (0 < List.length sts)%nat).
    { rewrite Hsts. destruct (epoch_runs epochs t); [congruence | cbn; lia]. }
    assert (Hall : firstn (S (List.length sts - 1)) vs = vs).
    { apply firstn_all2. unfold vs. rewrite length_map. lia. }
    pose proof (Hcount _ _ Hlast) as Hcnt. rewrite Hall in Hcnt.
    split.
    + unfold stopped. rewrite Hiff, Hcnt. reflexivity.
    + intro Hgo.
      destruct (epoch_runs_prev epochs t _ Hlast) as (prev & Hp & _).
      destruct (epoch_runs_step epochs t _ Hp Hlast) as (_ & _ & _ & _ & Hmore).
      pose proof (epoch_runs_length epochs t) as Hle.
      destruct (Nat.lt_ge_cases (S (List.length sts - 1)) (List.length epochs))
        as [Hlt|Hge].
      * specialize (Hmore Hgo Hlt). lia.
      * lia.
Qed.

(** *** Checkpoints *)

(** The calls of one epoch: the best checkpoint when the loss improved,
    then the end-of-epoch calls unless the loop breaks. *)
Lemma epoch_body_calls (epoch : nat) (t t' : Trainer) (stop : bool) :
  epoch_body epoch t = (t', stop) ->
  calls_since t t'
  = (if flt (epoch_val_loss t') (best_val_loss t)
     then [EvSaveModel best_model_pt] else [])
    ++ (if stop then []
        else [EvSaveModel (model_epoch_pt epoch);
              EvSaveTrainingCurves;
              EvAnalyzeModalWeights epoch]).
Proof.
  intro Hb. destruct (epoch_body_spec _ _ Hb) as (v & Hv & _ & _ & Hlog).
  unfold calls_since. rewrite Hlog, skipn_length_app.
  rewrite (epoch_val_loss_app _ _ _ Hv). reflexivity.
Qed.

Lemma epoch_prev_best (epochs : list nat) (t : Trainer) (k : nat)
      (prev : Trainer) (r : Trainer * bool) :
  nth_error (t :: epoch_states epochs t) k = Some prev ->
  nth_error (epoch_runs epochs t) k = Some r ->
  best_val_loss prev
  = fst (fold_left bookkeep
           (firstn k (map epoch_val_loss (epoch_states epochs t)))
           (best_val_loss t, patience_counter t)).
Proof.
  intros Hp Hr.
  destruct (epoch_runs_prev epochs t _ Hr) as (prev' & Hp' & Hcase).
  rewrite Hp in Hp'. inversion Hp'; subst prev'.
  destruct Hcase as [[-> ->]|(k' & r' & -> & Hr' & <- & _)]; [reflexivity|].
  rewrite <- (epoch_runs_bookkeep epochs t k' Hr'). reflexivity.
Qed.

(** C4, for a freshly initialised best loss ([+inf]) and validation
    losses that are numbers below [+inf] (neither [nan] nor [+inf]):
    from one epoch to the next the best validation loss stays or
    strictly decreases; [best_model.pt] is written in an epoch exactly
    when its validation loss is strictly below that of every earlier
    epoch of the run; and the epoch's own checkpoint
    [model_epoch_{k+1}.pt] is written exactly when the epoch does not
    break out of the loop. *)
Theorem checkpoint_bookkeeping (t : Trainer) :
  let epochs := range (NUM_EPOCHS config) in
  let sts := epoch_states epochs t in
  let vs := map epoch_val_loss sts in
  best_val_loss t = PosInf ->
  Forall (fun v => flt v PosInf = true) vs ->
  forall k prev r,
    nth_error (t :: sts) k = Some prev ->
    nth_error (epoch_runs epochs t) k = Some r ->
    (best_val_loss (fst r) = best_val_loss prev \/
     flt (best_val_loss (fst r)) (best_val_loss prev) = true) /\
    (In (EvSaveModel best_model_pt) (calls_since prev (fst r)) <->
     Forall (fun x => flt (epoch_val_loss (fst r)) x = true) (firstn k vs)) /\
    (In (EvSaveModel (model_epoch_pt k)) (calls_since prev (fst r)) <->
     snd r = false).
Proof.
  intros epochs sts vs Hbest Hfin k prev r Hp Hr.
  destruct (epoch_runs_step epochs t k Hp Hr) as (epoch & He & Hb & _).
  apply range_nth in He. subst epoch.
  symmetry in Hb. rewrite (surjective_pairing r) in Hb.
  destruct (epoch_body_spec _ _ Hb) as (v & Hv & Hbk & Hstop & _).
  rewrite (epoch_body_calls _ _ Hb), (epoch_val_loss_app _ _ _ Hv).
  assert (Hv_inf : flt v PosInf = true).
  { rewrite Forall_forall in Hfin. apply Hfin.
    apply nth_error_In with (n := k). unfold vs, sts, epoch_states.
    rewrite !nth_error_map, Hr. cbn.
    rewrite (epoch_val_loss_app _ _ _ Hv). reflexivity. }
  assert (Hrun : flt v (best_val_loss prev) = true <->
                 Forall (fun x => flt v x = true) (firstn k vs)).
  { rewrite (epoch_prev_best epochs t k Hp Hr), Hbest. fold sts vs.
    rewrite below_running_best.
    - tauto.
    - apply Forall_forall. intros x Hx. rewrite Forall_forall in Hfin.
      apply Hfin. rewrite <- (firstn_skipn k vs). apply in_or_app. left. exact Hx. }
  unfold bookkeep in Hbk. cbn [fst snd] in Hbk.
  destruct (flt v (best_val_loss prev)) eqn:Hlt.
  - injection Hbk as Hb' Hc'. cbn [negb andb] in Hstop. rewrite Hstop.
    split; [right; rewrite Hb'; exact Hlt|]. split.
    + split; [intros _; apply Hrun; reflexivity | intros _; left; reflexivity].
    + split; [reflexivity | intros _; right; left; reflexivity].
  - injection Hbk as Hb' Hc'.
    split; [left; exact Hb'|]. split.
    + split.
      * intro Hin. exfalso. cbn [app] in Hin.
        destruct (snd r); [exact Hin|].
        destruct Hin as [E|[E|[E|[]]]]; [|discriminate|discriminate].
        apply (f_equal (fun e => match e with
                                 | EvSaveModel f => f
                                 | _ => best_model_pt
                                 end)) in E.
        symmetry in E. exact (best_model_pt_not_epoch E).
      * intro H. apply Hrun in H. discriminate.
    + cbn [app]. destruct (snd r); split; try reflexivity.
      * intros [].
      * discriminate.
      * intros _. left. reflexivity.
Qed.

(** *** The final evaluation *)

(** The calls that the epoch loop makes. *)
Definition is_epoch_call (e : event) : bool :=
  match e with
  | EvSaveModel _ | EvSaveTrainingCurves | EvAnalyzeModalWeights _ => true
  | EvLoadModel _ | EvEvaluate _ => false
  end.

Lemma epoch_body_frame (epoch : nat) (t t' : Trainer) (stop : bool) :
  epoch_body epoch t = (t', stop) ->
  test_loader t' = test_loader t /\
  noise_test_loader t' = noise_test_loader t /\
  List.length (train_losses t') = S (List.length (train_losses t)) /\
  List.length (val_losses t') = S (List.length (val_losses t)) /\
  List.length (train_accuracies t') = S (List.length (train_accuracies t)) /\
  List.length (val_accuracies t') = S (List.length (val_accuracies t)).
Proof.
  unfold epoch_body, record_epoch.
  destruct (_train_epoch (model t)) as [m1 [[train_loss train_acc] alpha_values]].
  destruct (_validate m1) as [[val_loss val_acc] val_f1].
  cbn [best_val_loss patience_counter no_improvement].
  destruct (flt val_loss (best_val_loss t));
    [|destruct (EARLY_STOP_PATIENCE config <=? patience_counter t + 1)];
    intro H; inversion H; subst; clear H; cbn;
    rewrite !length_app; cbn; repeat split; lia.
Qed.

Lemma epoch_loop_frame (epochs : list nat) (t : Trainer) :
  let t1 := fst (epoch_loop epochs t) in
  let n := List.length (epoch_states epochs t) in
  test_loader t1 = test_loader t /\
  noise_test_loader t1 = noise_test_loader t /\
  (exists calls, log t1 = log t ++ calls /\ forallb is_epoch_call calls = true) /\
  List.length (train_losses t1) = (List.length (train_losses t) + n)%nat /\
  List.length (val_losses t1) = (List.length (val_losses t) + n)%nat /\
  List.length (train_accuracies t1) = (List.length (train_accuracies t) + n)%nat /\
  List.length (val_accuracies t1) = (List.length (val_accuracies t) + n)%nat.
Proof.
  unfold epoch_states.
  revert t. induction epochs as [|e rest IH]; intro t.
  - cbn. rewrite !Nat.add_0_r. repeat split; try reflexivity.
    exists []. rewrite app_nil_r. split; reflexivity.
  - cbn [epoch_loop epoch_runs map List.length].
    destruct (epoch_body e t) as [t' stop] eqn:Hb. cbn [fst snd].
    destruct (epoch_body_frame _ _ Hb) as (H1 & H2 & H3 & H4 & H5 & H6).
    destruct (epoch_body_spec _ _ Hb) as (v & _ & _ & _ & Hlog).
    assert (Hcalls : exists calls, log t' = log t ++ calls /\
                                   forallb is_epoch_call calls = true).
    { eexists. split; [exact Hlog|].
      destruct (flt v (best_val_loss t)), stop; reflexivity. }
    destruct stop; cbn [fst map List.length].
    + repeat split; try assumption; lia.
    + destruct (IH t') as (I1 & I2 & (calls' & Hl' & Hc') & I3 & I4 & I5 & I6).
      destruct Hcalls as (calls & Hl & Hc).
      split; [congruence|]. split; [congruence|]. split.
      * exists (calls ++ calls'). rewrite Hl', Hl, <- app_assoc.
        split; [reflexivity|]. rewrite forallb_app, Hc, Hc'. reflexivity.
      * repeat split; lia.
Qed.

(** C7, with the AUC as [evaluate] computes it: when [train] returns,
    the calls it made are those of the epoch loop, then the reload of
    [best_model.pt], then the evaluation of the test split, then that of
    the noisy test split; both evaluations run on the reloaded model;
    each result holds the accuracy and the macro F1 of its split and,
    as [auc], the macro one-vs-rest AUC when [roc_auc_score] returns one
    and [0] when it raises; and the returned histories are the
    trainer's, one more entry per epoch run. *)
Theorem final_evaluation (t t' : Trainer) (res : train_results) :
  train t = Some (t', res) ->
  let epochs := range (NUM_EPOCHS config) in
  let t1 := fst (epoch_loop epochs t) in
  let n := List.length (epoch_states epochs t) in
  exists best calls,
    load_model (model t1) best_model_pt (files t1) = Some best /\
    forallb is_epoch_call calls = true /\
    log t' = log t ++ calls ++ [EvLoadModel best_model_pt;
                                EvEvaluate test_name;
                                EvEvaluate noise_test_name] /\
    (forall split results,
        (split, results) = (test_loader t, test_results res) \/
        (split, results) = (noise_test_loader t, noise_test_results res) ->
        let '(all_preds, all_labels, all_probs) := predict best split in
        accuracy results = accuracy_score all_labels all_preds /\
        f1 results = f1_score_macro all_labels all_preds /\
        auc results
        = match roc_auc_score_ovr_macro (NUM_CLASSES config) all_labels all_probs with
          | Some a => a
          | None => Fin 0
          end) /\
    r_train_losses res = train_losses t1 /\
    r_val_losses res = val_losses t1 /\
    r_train_accuracies res = train_accuracies t1 /\
    r_val_accuracies res = val_accuracies t1 /\
    List.length (r_train_losses res) = (List.length (train_losses t) + n)%nat /\
    List.length (r_val_losses res) = (List.length (val_losses t) + n)%nat /\
    List.length (r_train_accuracies res) = (List.length (train_accuracies t) + n)%nat /\
    List.length (r_val_accuracies res) = (List.length (val_accuracies t) + n)%nat.
Proof.
  intros Htrain epochs t1 n. unfold train in Htrain. fold epochs t1 in Htrain.
  destruct (load_model (model t1) best_model_pt (files t1)) as [best|] eqn:Hload;
    [|discriminate].
  destruct (epoch_loop_frame epochs t)
    as (H1 & H2 & (calls & Hlog & Hcalls) & H3 & H4 & H5 & H6).
  fold t1 n in H1, H2, Hlog, H3, H4, H5, H6.
  inversion Htrain; subst t' res; clear Htrain. cbn.
  exists best, calls.
  split; [reflexivity|]. split; [exact Hcalls|].
  split; [rewrite Hlog, <- app_assoc; reflexivity|].
  split.
  { intros split results [E|E]; inversion E; subst; clear E;
      rewrite <- ?H1, <- ?H2; unfold evaluate;
      destruct (predict best _) as [[all_preds all_labels] all_probs];
      cbn; auto. }
  repeat split; assumption.
Qed.

(** *** Further facts about the loop *)

Lemma epoch_body_val (epoch : nat) (t t' : Trainer) (stop : bool) :
  epoch_body epoch t = (t', stop) ->
  epoch_val_loss t' = fst (fst (_validate (fst (_train_epoch (model t))))).
Proof.
  unfold epoch_body, record_epoch.
  destruct (_train_epoch (model t)) as [m1 [[train_loss train_acc] alpha_values]].
  cbn [fst].
  destruct (_validate m1) as [[val_loss val_acc] val_f1].
  cbn [best_val_loss patience_counter no_improvement fst].
  destruct (flt val_loss (best_val_loss t));
    [|destruct (EARLY_STOP_PATIENCE config <=? patience_counter t + 1)];
    intro H; inversion H; subst; clear H;
    unfold epoch_val_loss; cbn; apply last_last.
Qed.

(** The epoch that breaks out of the loop has recorded its statistics
    but makes no call: no checkpoint, no curves, no histogram. *)
Theorem breaking_epoch_is_silent (epochs : list nat) (t : Trainer) (k : nat)
        (prev : Trainer) (r : Trainer * bool) :
  nth_error (t :: epoch_states epochs t) k = Some prev ->
  nth_error (epoch_runs epochs t) k = Some r ->
  snd r = true ->
  calls_since prev (fst r) = [] /\
  log (fst r) = log prev /\
  val_losses (fst r) = val_losses prev ++ [epoch_val_loss (fst r)] /\
  flt (epoch_val_loss (fst r)) (best_val_loss prev) = false.
Proof.
  intros Hp Hr Hstop.
  destruct (epoch_runs_step epochs t k Hp Hr) as (epoch & _ & Hb & _).
  symmetry in Hb. rewrite (surjective_pairing r) in Hb.
  destruct (epoch_body_spec _ _ Hb) as (v & Hv & _ & Hs & Hlog).
  rewrite (epoch_body_calls _ _ Hb), (epoch_val_loss_app _ _ _ Hv).
  rewrite Hstop in Hs, Hlog |- *.
  destruct (flt v (best_val_loss prev)); [discriminate|].
  rewrite app_nil_r in Hlog. auto.
Qed.

Lemma bookkeep_best_attained (l : list pyfloat) (b : pyfloat) (c : Z) :
  fst (fold_left bookkeep l (b, c)) = b \/ In (fst (fold_left bookkeep l (b, c))) l.
Proof.
  revert b c. induction l as [|x l IH]; intros b c; [left; reflexivity|].
  cbn [fold_left]. unfold bookkeep at 2 4. cbn [fst snd].
  destruct (flt x b).
  - destruct (IH x 0%Z) as [H|H]; right; [left; symmetry; exact H | right; exact H].
  - destruct (IH b (c + 1)%Z) as [H|H]; [left; exact H | right; right; exact H].
Qed.

Lemma bookkeep_best_decreases (l : list pyfloat) (b : pyfloat) (c : Z) :
  fst (fold_left bookkeep l (b, c)) = b \/
  flt (fst (fold_left bookkeep l (b, c))) b = true.
Proof.
  revert b c. induction l as [|x l IH]; intros b c; [left; reflexivity|].
  cbn [fold_left]. unfold bookkeep at 2 4. cbn [fst snd].
  destruct (flt x b) eqn:Hx.
  - destruct (IH x 0%Z) as [H|H]; right; [rewrite H; exact Hx|].
    eapply flt_trans; eassumption.
  - apply IH.
Qed.

Lemma bookkeep_lower_bound (l : list pyfloat) (b : pyfloat) (c : Z) (v : pyfloat) :
  In v l -> flt v (fst (fold_left bookkeep l (b, c))) = false.
Proof.
  revert b c. induction l as [|x l IH]; intros b c Hin; [destruct Hin|].
  cbn [fold_left]. unfold bookkeep at 2. cbn [fst snd].
  destruct Hin as [->|Hin]; [|destruct (flt x b); apply IH; exact Hin].
  destruct (flt v b) eqn:Hvb.
  - destruct (bookkeep_best_decreases l v 0%Z) as [H|H].
    + rewrite H. apply flt_irrefl.
    + destruct (flt v (fst (fold_left bookkeep l (v, 0%Z)))) eqn:E; [|reflexivity].
      pose proof (flt_trans _ _ _ E H) as Hvv. rewrite flt_irrefl in Hvv.
      discriminate.
  - destruct (bookkeep_best_decreases l b (c + 1)%Z) as [H|H].
    + rewrite H. exact Hvb.
    + destruct (flt v (fst (fold_left bookkeep l (b, (c + 1)%Z)))) eqn:E;
        [|reflexivity].
      pose proof (flt_trans _ _ _ E H) as Hvb'. congruence.
Qed.

(** When the loop ends, [best_val_loss] is the loss the trainer came
    with or one of the validation losses of the run, and no validation
    loss of the run is strictly below it. *)
Theorem best_val_loss_is_least (epochs : list nat) (t : Trainer) :
  let t1 := fst (epoch_loop epochs t) in
  let vs := map epoch_val_loss (epoch_states epochs t) in
  (best_val_loss t1 = best_val_loss t \/ In (best_val_loss t1) vs) /\
  (forall v, In v vs -> flt v (best_val_loss t1) = false) /\
  (best_val_loss t1 = best_val_loss t \/
   flt (best_val_loss t1) (best_val_loss t) = true).
Proof.
  intros t1 vs.
  assert (Hbest : best_val_loss t1
                  = fst (fold_left bookkeep vs (best_val_loss t, patience_counter t))).
  { unfold t1, vs. rewrite epoch_loop_runs.
    destruct (epoch_runs epochs t) as [|r0 rs] eqn:Hruns.
    - unfold epoch_states. rewrite Hruns. reflexivity.
    - assert (Hne : epoch_runs epochs t <> []) by congruence.
      pose proof (nth_error_last_default (t, false) Hne) as Hlast.
      pose proof (epoch_runs_bookkeep epochs t _ Hlast) as Hbk.
      rewrite firstn_all2 in Hbk
        by (unfold epoch_states; rewrite !length_map;
            destruct (epoch_runs epochs t); [congruence | cbn; lia]).
      rewrite <- Hruns, <- Hbk. reflexivity. }
  rewrite Hbest. split; [apply bookkeep_best_attained|].
  split; [intros v Hv; apply bookkeep_lower_bound; exact Hv|].
  apply bookkeep_best_decreases.
Qed.

End Loop.

(** *** A scripted learner, to run the loop on

    The learner is the list of validation losses that the coming epochs
    will measure; a training pass moves on to the next one.  The disk
    keeps what was saved under each file name, newest first. *)

Definition script : Type := list pyfloat.

Definition script_train_epoch (l : script) : script * (pyfloat * pyfloat * list pyfloat) :=
  (tl l, (Fin 0, Fin 0, [])).

Definition script_validate (l : script) : pyfloat * pyfloat * pyfloat :=
  (hd NaN l, Fin 0, Fin 0).

Definition script_disk : Type := list (string * script).

Definition script_save (m : script) (file : string) (d : script_disk) : script_disk :=
  (file, m) :: d.

Fixpoint script_load (m : script) (file : string) (d : script_disk) : option script :=
  match d with
  | [] => None
  | (f, saved) :: rest =>
      if String.eqb f file then Some saved else script_load m file rest
  end.

(** Stand-ins for the forward passes and the metrics: a split is the
    list of its labels, the model predicts every label right, accuracy
    and F1 are [1] on equal lists and [0] otherwise.  [roc_auc_score]
    raises when a class has no sample in the split ("Only one class
    present in y_true"), as it does on the one-hot columns that
    [evaluate] hands to it. *)
Definition script_predict (m : script) (split : list Z)
  : list Z * list Z * list (list pyfloat) :=
  (split, split, map (fun _ => []) split).

Definition script_score (all_labels all_preds : list Z) : pyfloat :=
  if list_eq_dec Z.eq_dec all_labels all_preds then Fin 1 else Fin 0.

Definition script_roc_auc (num_classes : Z) (all_labels : list Z)
           (all_probs : list (list pyfloat)) : option pyfloat :=
  if forallb (fun c => existsb (Z.eqb (Z.of_nat c)) all_labels)
             (seq 0 (Z.to_nat num_classes))
  then Some (Fin 1) else None.

(** A fresh trainer that will measure the validation losses [vs]. *)
Definition script_trainer_on (vs : list pyfloat) (test noise : list Z)
  : Trainer script script_disk (list Z) :=
  init (NaN :: vs) test noise [].

Definition script_trainer (vs : list pyfloat) : Trainer script script_disk (list Z) :=
  script_trainer_on vs [] [].

Definition script_runs (cfg : Config) (vs : list pyfloat)
  : list (Trainer script script_disk (list Z) * bool) :=
  epoch_runs script_train_epoch script_validate script_save cfg
             (range (NUM_EPOCHS cfg)) (script_trainer vs).

Definition script_loop (cfg : Config) (vs : list pyfloat)
  : Trainer script script_disk (list Z) * bool :=
  epoch_loop script_train_epoch script_validate script_save cfg
             (range (NUM_EPOCHS cfg)) (script_trainer vs).

Definition script_train (cfg : Config) (vs : list pyfloat) (test noise : list Z)
  : option (Trainer script script_disk (list Z) * train_results) :=
  train script_train_epoch script_validate script_save script_load
        script_predict script_score script_score script_roc_auc cfg
        (script_trainer_on vs test noise).

Definition q (n : Z) : pyfloat := Fin (inject_Z n).

Lemma early_stopping_patience_witness :
  let cfg := mkConfig 5 2 3 in
  let vs := [q 3; q 2; q 4; q 5; q 1] in
  1 <= EARLY_STOP_PATIENCE cfg /\
  patience_counter (script_trainer vs) = 0 /\
  snd (script_loop cfg vs) = true.
Proof.
  intros cfg vs.
  assert (HP : 1 <= EARLY_STOP_PATIENCE cfg) by (cbn; lia).
  assert (Hc : patience_counter (script_trainer vs) = 0) by reflexivity.
  split; [exact HP|]. split; [exact Hc|].
  destruct (early_stopping_patience script_train_epoch script_validate
              script_save cfg (script_trainer vs) HP Hc)
    as (_ & _ & _ & Hstop & _).
  apply Hstop. vm_compute. reflexivity.
Defined.

(** C1 as stated fails for a patience of [0]: the second epoch does not
    improve, the counter goes to [1] and stays above the patience. *)
Lemma early_stopping_patience_zero :
  let cfg := mkConfig 2 0 3 in
  let t := fst (script_loop cfg [q 1; q 1]) in
  patience_counter (script_trainer [q 1; q 1]) = 0 /\
  val_losses t = [q 1; q 1] /\
  patience_counter t = 1 /\
  ~ patience_counter t <= EARLY_STOP_PATIENCE cfg.
Proof.
  vm_compute. repeat split; try reflexivity. intro H. apply H. reflexivity.
Qed.

Lemma checkpoint_bookkeeping_witness :
  let cfg := mkConfig 3 5 3 in
  let vs := [q 3; q 2; q 4] in
  let t := script_trainer vs in
  let prev := fst (nth 0 (script_runs cfg vs) (t, false)) in
  let r := nth 1 (script_runs cfg vs) (t, false) in
  best_val_loss t = PosInf /\
  Forall (fun v => flt v PosInf = true) vs /\
  In (EvSaveModel best_model_pt) (calls_since prev (fst r)) /\
  In (EvSaveModel (model_epoch_pt 1)) (calls_since prev (fst r)).
Proof.
  intros cfg vs t prev r.
  assert (Hbest : best_val_loss t = PosInf) by reflexivity.
  assert (Hfin : Forall (fun v => flt v PosInf = true) vs)
    by (repeat constructor).
  split; [exact Hbest|]. split; [exact Hfin|].
  destruct (checkpoint_bookkeeping script_train_epoch script_validate
              script_save cfg t Hbest) with (k := 1%nat) (prev := prev) (r := r)
    as (_ & Hbestpt & Hepoch).
  - vm_compute. repeat constructor.
  - vm_compute. reflexivity.
  - vm_compute. reflexivity.
  - split.
    + apply Hbestpt. vm_compute. repeat constructor.
    + apply Hepoch. vm_compute. reflexivity.
Defined.

(** C4 as stated fails when a validation loss is [nan]: the second
    epoch's loss [1.0] is below the best ([inf]), so [best_model.pt] is
    written, yet [1.0 < nan] is false, so the loss is not strictly below
    that of every earlier epoch. *)
Lemma checkpoint_bookkeeping_nan :
  let cfg := mkConfig 2 5 3 in
  let vs := [NaN; q 1] in
  let t := script_trainer vs in
  let prev := fst (nth 0 (script_runs cfg vs) (t, false)) in
  let cur := fst (nth 1 (script_runs cfg vs) (t, false)) in
  map (fun s => epoch_val_loss (fst s)) (script_runs cfg vs) = vs /\
  In (EvSaveModel best_model_pt) (calls_since prev cur) /\
  ~ Forall (fun x => flt (epoch_val_loss cur) x = true) (firstn 1 vs).
Proof.
  vm_compute. split; [reflexivity|]. split; [left; reflexivity|].
  intro H. inversion H. discriminate.
Qed.

Lemma final_evaluation_witness :
  let cfg := mkConfig 2 5 3 in
  exists t' res,
    script_train cfg [q 2; q 1] [0; 1; 2] [2; 1; 0; 0] = Some (t', res) /\
    auc (test_results res) = Fin 1 /\
    accuracy (noise_test_results res) = Fin 1 /\
    r_val_losses res = [q 2; q 1].
Proof.
  intro cfg.
  destruct (script_train cfg [q 2; q 1] [0; 1; 2] [2; 1; 0; 0])
    as [[t' res]|] eqn:Htrain; [|vm_compute in Htrain; discriminate].
  exists t', res. split; [reflexivity|].
  destruct (final_evaluation script_train_epoch script_validate script_save
              script_load script_predict script_score script_score
              script_roc_auc cfg _ Htrain)
    as (best & calls & _ & _ & _ & Heval & _ & Hval & _).
  pose proof (Heval _ _ (or_introl eq_refl)) as Htest.
  pose proof (Heval _ _ (or_intror eq_refl)) as Hnoise.
  cbn in Htest, Hnoise.
  destruct Htest as (_ & _ & ->). destruct Hnoise as (-> & _).
  rewrite Hval. vm_compute. repeat split.
Defined.

(** C7 as stated fails when [roc_auc_score] raises: a test split in
    which class [2] has no sample has no macro one-vs-rest AUC, the run
    still completes, and its [test_results] hold [0] as [auc]. *)
Lemma final_evaluation_auc_fallback :
  let cfg := mkConfig 2 5 3 in
  let test := [0; 1; 0] in
  exists t' res,
    script_train cfg [q 2; q 1] test [0; 1; 2] = Some (t', res) /\
    labels (test_results res) = test /\
    script_roc_auc (NUM_CLASSES cfg) (labels (test_results res))
                   (probabilities (test_results res)) = None /\
    auc (test_results res) = Fin 0.
Proof.
  intros cfg test.
  destruct (script_train cfg [q 2; q 1] test [0; 1; 2])
    as [[t' res]|] eqn:Htrain; [|vm_compute in Htrain; discriminate].
  exists t', res. split; [reflexivity|].
  vm_compute in Htrain. inversion Htrain; subst. vm_compute. repeat split.
Qed.

End TrainLoop.

(** ** One training batch: [Trainer._train_epoch] *)

Module TrainEpoch.
Import PyFloat.

Local Open Scope Z_scope.

Section Batch.

(** Tensors are opaque here; [weights] is what [optimizer.step] and
    [scheduler.step] update. *)
Variables weights text_inputs images labels logits features : Type.

(** A batch of the loader: [input_ids] with [attention_mask], [image],
    [label]. *)
Record batch : Type := mkBatch {
  b_text : text_inputs;
  b_image : images;
  b_label : labels
}.

(** What the model returns: logits, text features, image features and
    the modality weights, if any. *)
Record forward_out : Type := mkForward {
  f_logits : logits;
  f_text_features : features;
  f_image_features : features;
  f_alpha : option (list pyfloat)
}.

Variable forward : weights -> text_inputs -> images -> forward_out.
(** [self.criterion], the cross-entropy set up in [__init__]. *)
Variable criterion : logits -> labels -> pyfloat.
(** [self.model.get_contrastive_loss], when the model has the attribute. *)
Variable get_contrastive_loss : option (features -> features -> pyfloat -> pyfloat).
(** The augmentation drawn for the batch: [_mixup] or [_cutmix]. *)
Variable augment : images -> labels -> images * labels.
(** [labels.long()] *)
Variable long : labels -> labels.
(** [labels.size(0)] and the number of right predictions. *)
Variable size0 : labels -> Z.
Variable count_correct : logits -> labels -> Z.
(** [loss.backward()], gradient clipping, [optimizer.step()] and
    [scheduler.step()], for the loss computed on this forward pass. *)
Variable backward_and_step : weights -> forward_out -> labels -> pyfloat -> weights.

Variables CONTRASTIVE_WEIGHT TEMPERATURE : pyfloat.

(** The running sums of [_train_epoch]. *)
Record sums : Type := mkSums {
  total_loss : pyfloat;
  total_samples : Z;
  correct : Z;
  alpha_values : list pyfloat
}.

(** Lines 345-358. *)
Definition batch_loss (out : forward_out) (lbl : labels) : pyfloat :=
  let classification_loss := criterion (f_logits out) lbl in
  match get_contrastive_loss with
  | Some contrastive =>
      let contrastive_loss :=
        contrastive (f_text_features out) (f_image_features out) TEMPERATURE in
      fadd classification_loss (fmul CONTRASTIVE_WEIGHT contrastive_loss)
  | None => classification_loss
  end.

(** The body of the loop over the loader; the third component is the
    loss that is backpropagated. *)
Definition train_batch (w : weights) (acc : sums) (b : batch)
  : weights * sums * pyfloat :=
  let '(imgs, lbls) := augment (b_image b) (b_label b) in
  let out := forward w (b_text b) imgs in
  let lbl := long lbls in
  let loss := batch_loss out lbl in
  let w' := backward_and_step w out lbl loss in
  (w',
   {| total_loss := fadd (total_loss acc) (fmul loss (Fin (inject_Z (size0 lbl))));
      total_samples := total_samples acc + size0 lbl;
      correct := correct acc + count_correct (f_logits out) lbl;
      alpha_values := alpha_values acc
                      ++ match f_alpha out with Some a => a | None => [] end |},
   loss).

(** The losses backpropagated over a pass, batch by batch. *)
Fixpoint train_batches (w : weights) (acc : sums) (loader : list batch)
  : weights * sums * list pyfloat :=
  match loader with
  | [] => (w, acc, [])
  | b :: rest =>
      let '(w', acc', loss) := train_batch w acc b in
      let '(w'', acc'', losses) := train_batches w' acc' rest in
      (w'', acc'', loss :: losses)
  end.

(** C2: the loss handed to [backward] for a batch is the classification
    loss of the augmented batch plus [CONTRASTIVE_WEIGHT] times the
    contrastive loss of its text and image features when the model
    provides [get_contrastive_loss], and the classification loss alone
    when it does not; the weights after the batch are those of the
    backward pass and optimizer step on that loss. *)
Theorem loss_composition (w : weights) (acc : sums) (b : batch) :
  let '(imgs, lbls) := augment (b_image b) (b_label b) in
  let out := forward w (b_text b) imgs in
  let classification_loss := criterion (f_logits out) (long lbls) in
  let loss :=
    match get_contrastive_loss with
    | Some contrastive =>
        fadd classification_loss
             (fmul CONTRASTIVE_WEIGHT
                   (contrastive (f_text_features out) (f_image_features out)
                                TEMPERATURE))
    | None => classification_loss
    end in
  snd (train_batch w acc b) = loss /\
  fst (fst (train_batch w acc b)) = backward_and_step w out (long lbls) loss.
Proof.
  unfold train_batch, batch_loss.
  destruct (augment (b_image b) (b_label b)) as [imgs lbls].
  destruct get_contrastive_loss; split; reflexivity.
Qed.

End Batch.

End TrainEpoch.

(** ** numpy and Python floats where their rounding is observed

    [_rand_bbox] truncates a float product to an integer, and the class
    weights are returned as they were rounded, so for these two the
    binary64 operations are the ones of IEEE 754, bit for bit, as
    [SpecFloat] defines them on [spec_float]. *)

Module Float64.
Import PyFloat.

Local Open Scope Z_scope.

Definition float64 : Type := spec_float.
Definition prec : Z := 53.
Definition emax : Z := 1024.

(** A Python [int] or a numpy [int64] where a float is expected. *)
Definition of_int (z : Z) : float64 := binary_normalize prec emax z 0 false.
Definition zero : float64 := S754_zero false.
Definition one : float64 := of_int 1.
Definition sub : float64 -> float64 -> float64 := SFsub prec emax.
Definition mul : float64 -> float64 -> float64 := SFmul prec emax.
Definition sqrt : float64 -> float64 := SFsqrt prec emax.
Definition leb : float64 -> float64 -> bool := SFleb.
Definition ltb : float64 -> float64 -> bool := SFltb.

(** The values of the format: mantissas of at most 53 bits, in normal
    form. *)
Definition is_float64 (x : float64) : bool := valid_binary prec emax x.

(** [int(x)]: towards zero; it raises on [nan] and on an infinity. *)
Definition py_int (x : float64) : option Z :=
  match x with
  | S754_zero _ => Some 0
  | S754_finite s m e =>
      Some (cond_Zopp s (match e with
                         | Zneg p => Zpos m / 2 ^ Zpos p
                         | _ => Zpos m * 2 ^ e
                         end))
  | _ => None
  end.


(** The number a float stands for, in either format. *)
Definition to_pyfloat (x : spec_float) : pyfloat :=
  match x with
  | S754_nan => NaN
  | S754_infinity s => if s then NegInf else PosInf
  | S754_zero _ => Fin 0
  | S754_finite s m e =>
      Fin (Qred (match e with
                 | Zneg p => Qmake (cond_Zopp s (Zpos m)) (2 ^ p)
                 | _ => inject_Z (cond_Zopp s (Zpos m * 2 ^ e))
                 end))
  end.

(** *** Magnitudes

    [below K x]: [x] is a zero or a positive number below [2 ^ K]. *)
Definition below (K : Z) (x : float64) : Prop :=
  match x with
  | S754_zero _ => True
  | S754_finite false m e => Zpos (digits2_pos m) + e <= K
  | _ => False
  end.

Lemma digits2_pos_size (p : positive) : digits2_pos p = Pos.size p.
Proof. induction p; simpl; congruence. Qed.

Lemma Zdigits2_log2 (m : Z) : 0 < m -> Zdigits2 m = Z.log2 m + 1.
Proof.
  destruct m as [|p|p]; try lia. intros _. simpl Zdigits2.
  rewrite digits2_pos_size. destruct p; simpl; lia.
Qed.

Lemma Zdigits2_nonneg (m : Z) : 0 <= Zdigits2 m.
Proof. destruct m; simpl; lia. Qed.

Lemma Zdigits2_div (m n : Z) :
  0 <= m -> 0 <= n -> Zdigits2 (m / 2 ^ n) <= Z.max 0 (Zdigits2 m - n).
Proof.
  intros Hm Hn.
  assert (Hp : 0 < 2 ^ n) by (apply Z.pow_pos_nonneg; lia).
  destruct (Z.eq_dec (m / 2 ^ n) 0) as [E|E]; [rewrite E; simpl; lia|].
  assert (Hq : 0 < m / 2 ^ n) by (pose proof (Z.div_pos m (2 ^ n) Hm Hp); lia).
  assert (Hm' : 0 < m).
  { destruct (Z.eq_dec m 0) as [->|]; [rewrite Z.div_0_l in Hq; lia | lia]. }
  rewrite (Zdigits2_log2 Hq), (Zdigits2_log2 Hm').
  rewrite <- Z.shiftr_div_pow2 by exact Hn.
  rewrite Z.log2_shiftr by exact Hm'.
  destruct (Z.le_gt_cases n (Z.log2 m)); [lia|].
  exfalso. apply E. apply Z.div_small. split; [lia|].
  apply Z.log2_lt_pow2; lia.
Qed.

Lemma Zdigits2_succ (m : Z) : 0 <= m -> Zdigits2 (m + 1) <= Zdigits2 m + 1.
Proof.
  intro Hm. destruct (Z.eq_dec m 0) as [->|]; [simpl; lia|].
  rewrite !Zdigits2_log2 by lia.
  pose proof (Z.log2_succ_le m). unfold Z.succ in *. lia.
Qed.

Lemma Zdigits2_mul (a b : Z) :
  0 < a -> 0 < b -> Zdigits2 (a * b) <= Zdigits2 a + Zdigits2 b.
Proof.
  intros Ha Hb. rewrite !Zdigits2_log2 by nia.
  pose proof (Z.log2_mul_above a b). lia.
Qed.

Lemma Zdigits2_shift (a k : Z) :
  0 < a -> 0 <= k -> Zdigits2 (a * 2 ^ k) = Zdigits2 a + k.
Proof.
  intros Ha Hk.
  assert (0 < 2 ^ k) by (apply Z.pow_pos_nonneg; lia).
  rewrite !Zdigits2_log2 by nia.
  rewrite Z.log2_mul_pow2 by lia. lia.
Qed.

Lemma Zdigits2_below (a k : Z) : 0 <= a < 2 ^ k -> 0 <= k -> Zdigits2 a <= k.
Proof.
  intros Ha Hk. destruct (Z.eq_dec a 0) as [->|]; [simpl; lia|].
  rewrite Zdigits2_log2 by lia.
  assert (Z.log2 a < k) by (apply Z.log2_lt_pow2; lia). lia.
Qed.

Lemma Zdigits2_above (a : Z) : 0 <= a -> a < 2 ^ Zdigits2 a.
Proof.
  intro Ha. destruct (Z.eq_dec a 0) as [->|]; [simpl; lia|].
  rewrite Zdigits2_log2 by lia.
  pose proof (Z.log2_spec a). unfold Z.succ in *. lia.
Qed.

(** *** Shifting right *)

Lemma shr_1_m (r : shr_record) : 0 <= shr_m r -> shr_m (shr_1 r) = shr_m r / 2.
Proof.
  destruct r as [m r s]. cbn [shr_m]. intro H. unfold shr_1.
  destruct m as [|[p|p|]|p]; cbn [shr_m]; try lia; try reflexivity.
  - apply Z.div_unique with (r := 1); lia.
  - apply Z.div_unique with (r := 0); lia.
Qed.

Lemma iter_shr_1_m (p : positive) (r : shr_record) :
  0 <= shr_m r -> shr_m (iter_pos shr_1 p r) = shr_m r / 2 ^ Zpos p.
Proof.
  revert r. induction p as [p IH|p IH|]; intros r Hr; cbn [iter_pos].
  - assert (H1 : 0 <= shr_m (shr_1 r)) by (rewrite shr_1_m by exact Hr; apply Z.div_pos; lia).
    assert (H2 : 0 <= shr_m (iter_pos shr_1 p (shr_1 r)))
      by (rewrite IH by exact H1; apply Z.div_pos; [lia | apply Z.pow_pos_nonneg; lia]).
    rewrite IH, IH, shr_1_m by assumption.
    rewrite !Z.div_div by (try apply Z.pow_pos_nonneg; lia).
    f_equal. change 2 with (2 ^ 1) at 1.
    rewrite <- !Z.pow_add_r by lia. f_equal. lia.
  - assert (H2 : 0 <= shr_m (iter_pos shr_1 p r))
      by (rewrite IH by exact Hr; apply Z.div_pos; [lia | apply Z.pow_pos_nonneg; lia]).
    rewrite IH, IH by assumption.
    rewrite !Z.div_div by (try apply Z.pow_pos_nonneg; lia).
    f_equal. rewrite <- !Z.pow_add_r by lia. f_equal. lia.
  - rewrite shr_1_m by exact Hr. reflexivity.
Qed.

Lemma shr_record_of_loc_m (m : Z) (l : location) : shr_m (shr_record_of_loc m l) = m.
Proof. destruct l as [|[| |]]; reflexivity. Qed.

Lemma shr_fexp_spec (m e : Z) (l : location) :
  0 <= m ->
  let e' := Z.max e (fexp prec emax (Zdigits2 m + e)) in
  snd (shr_fexp prec emax m e l) = e' /\
  shr_m (fst (shr_fexp prec emax m e l)) = m / 2 ^ (e' - e).
Proof.
  intros Hm e'. unfold shr_fexp, shr.
  destruct (fexp prec emax (Zdigits2 m + e) - e) as [|p|p] eqn:E; cbn [fst snd].
  - rewrite shr_record_of_loc_m. replace (e' - e) with 0 by lia.
    split; [lia | rewrite Z.div_1_r; reflexivity].
  - rewrite iter_shr_1_m by (rewrite shr_record_of_loc_m; exact Hm).
    rewrite shr_record_of_loc_m. replace (e' - e) with (Zpos p) by lia.
    split; [lia | reflexivity].
  - rewrite shr_record_of_loc_m. replace (e' - e) with 0 by lia.
    split; [lia | rewrite Z.div_1_r; reflexivity].
Qed.

Lemma round_nearest_even_range (m : Z) (l : location) :
  m <= round_nearest_even m l <= m + 1.
Proof.
  unfold round_nearest_even. destruct l as [|[| |]]; try lia.
  destruct (Z.even m); lia.
Qed.

(** Rounding a magnitude below [2 ^ K] gives a zero or a number below
    [2 ^ (K + 1)], with the sign it was given. *)
Lemma binary_round_aux_below (s : bool) (m e K : Z) (l : location) :
  0 <= m -> e <= emax - prec -> Zdigits2 m + e <= K ->
  3 - emax - prec <= K -> K < emax ->
  match binary_round_aux prec emax s m e l with
  | S754_zero s' => s' = s
  | S754_finite s' m' e' => s' = s /\ Zpos (digits2_pos m') + e' <= K + 1
  | _ => False
  end.
Proof.
  intros Hm He HK Hlo Hhi. unfold binary_round_aux.
  destruct (shr_fexp_spec e l Hm) as [He1 Hm1].
  destruct (shr_fexp prec emax m e l) as [r1 e1]. cbn [fst snd] in He1, Hm1.
  cbv zeta in He1, Hm1. rewrite <- He1 in Hm1.
  set (m2 := round_nearest_even (shr_m r1) (loc_of_shr_record r1)).
  assert (Hp1 : 0 < 2 ^ (e1 - e)) by (apply Z.pow_pos_nonneg; lia).
  assert (Hm1' : 0 <= shr_m r1) by (rewrite Hm1; apply Z.div_pos; lia).
  pose proof (round_nearest_even_range (shr_m r1) (loc_of_shr_record r1)) as Hr.
  fold m2 in Hr.
  assert (Hm2 : 0 <= m2) by lia.
  destruct (shr_fexp_spec e1 loc_Exact Hm2) as [He2 Hm3].
  destruct (shr_fexp prec emax m2 e1 loc_Exact) as [r2 e2]. cbn [fst snd] in He2, Hm3.
  cbv zeta in He2, Hm3. rewrite <- He2 in Hm3.
  assert (Hp2 : 0 < 2 ^ (e2 - e1)) by (apply Z.pow_pos_nonneg; lia).
  pose proof (@Zdigits2_div m (e1 - e) Hm ltac:(lia)) as Hd1. rewrite <- Hm1 in Hd1.
  assert (Hd2 : Zdigits2 m2 <= Zdigits2 (shr_m r1) + 1).
  { destruct (Z.eq_dec m2 (shr_m r1)) as [->|]; [lia|].
    replace m2 with (shr_m r1 + 1) by lia. apply Zdigits2_succ. exact Hm1'. }
  pose proof (@Zdigits2_div m2 (e2 - e1) Hm2 ltac:(lia)) as Hd3. rewrite <- Hm3 in Hd3.
  pose proof (Zdigits2_nonneg m) as Hn0.
  pose proof (Zdigits2_nonneg (shr_m r1)) as Hn1.
  pose proof (Zdigits2_nonneg m2) as Hn2.
  unfold fexp, SpecFloat.emin, prec, emax in *.
  destruct (shr_m r2) as [|p|p] eqn:E3.
  - reflexivity.
  - cbn [Zdigits2] in Hd3.
    destruct (Z.leb_spec e2 (1024 - 53)) as [Hle|Hgt].
    + split; [reflexivity|]. lia.
    + lia.
  - assert (0 <= Zneg p) by (rewrite Hm3; apply Z.div_pos; lia). lia.
Qed.


(** *** Shifting left, and rounding a magnitude that needs no location *)

Lemma iter_xO (m d : positive) : Zpos (Pos.iter xO m d) = Zpos m * 2 ^ Zpos d.
Proof.
  induction d as [|d IH] using Pos.peano_ind.
  - cbn [Pos.iter]. lia.
  - rewrite Pos.iter_succ, Pos2Z.inj_xO, IH, Pos2Z.inj_succ, Z.pow_succ_r by lia. lia.
Qed.

Lemma shl_align_spec (mx : positive) (ex ex' : Z) :
  let ez := snd (shl_align mx ex ex') in
  ez = Z.min ex ex' /\ Zpos (fst (shl_align mx ex ex')) = Zpos mx * 2 ^ (ex - ez).
Proof.
  unfold shl_align. destruct (ex' - ex) as [|p|p] eqn:E; cbn [fst snd].
  - split; [lia|]. replace (ex - ex) with 0 by lia. lia.
  - split; [lia|]. replace (ex - ex) with 0 by lia. lia.
  - split; [lia|]. rewrite iter_xO. do 2 f_equal. lia.
Qed.

Lemma binary_round_below (s : bool) (mx : positive) (ex K : Z) :
  ex <= emax - prec -> Zpos (digits2_pos mx) + ex <= K ->
  3 - emax - prec <= K -> K < emax ->
  match binary_round prec emax s mx ex with
  | S754_zero s' => s' = s
  | S754_finite s' m' e' => s' = s /\ Zpos (digits2_pos m') + e' <= K + 1
  | _ => False
  end.
Proof.
  intros He HK Hlo Hhi. unfold binary_round.
  destruct (shl_align_spec mx ex (fexp prec emax (Zpos (digits2_pos mx) + ex)))
    as [Hez Hmz].
  destruct (shl_align mx ex (fexp prec emax (Zpos (digits2_pos mx) + ex))) as [mz ez].
  cbn [fst snd] in Hez, Hmz.
  apply binary_round_aux_below; try assumption; try lia.
  rewrite Hmz, Zdigits2_shift by lia. cbn [Zdigits2]. lia.
Qed.

Lemma below_of_round (K : Z) (x : float64) :
  match x with
  | S754_zero s' => s' = false
  | S754_finite s' m' e' => s' = false /\ Zpos (digits2_pos m') + e' <= K
  | _ => False
  end -> below K x.
Proof.
  destruct x as [s|s| |s m e]; cbn [below]; try tauto. intros [-> H]. exact H.
Qed.

Lemma below_exponent (K : Z) (s : bool) (m : positive) (e : Z) :
  below K (S754_finite s m e) -> s = false /\ e < K.
Proof.
  destruct s; cbn [below]; [tauto|]. intro H. split; [reflexivity|].
  pose proof (Pos2Z.is_pos (digits2_pos m)). lia.
Qed.

(** *** The operations of [_rand_bbox] *)

Lemma of_int_below (W : Z) : 0 <= W < 2 ^ 63 -> below 64 (of_int W).
Proof.
  intro HW. unfold of_int, binary_normalize. destruct W as [|w|w]; [exact I | | lia].
  apply below_of_round.
  apply (@binary_round_below false w 0 63); unfold prec, emax; try lia.
  pose proof (@Zdigits2_below (Zpos w) 63 HW). cbn [Zdigits2] in *. lia.
Qed.

Lemma one_eq : one = S754_finite false 4503599627370496 (-52).
Proof. vm_compute. reflexivity. Qed.

Lemma valid_digits (s : bool) (m : positive) (e : Z) :
  is_float64 (S754_finite s m e) = true -> Zpos (digits2_pos m) <= 53.
Proof.
  unfold is_float64, valid_binary, bounded, canonical_mantissa.
  intro H. apply andb_prop in H. destruct H as [H _]. apply Z.eqb_eq in H.
  unfold fexp, SpecFloat.emin, prec, emax in H. lia.
Qed.

Lemma sub_one_below (lam : float64) :
  is_float64 lam = true -> leb zero lam = true -> leb lam one = true ->
  below 1 (sub one lam).
Proof.
  rewrite one_eq. intros Hv H0 H1. destruct lam as [s|s| |s m e].
  - unfold sub, SFsub. cbn [below].
    change (digits2_pos 4503599627370496) with 53%positive. lia.
  - destruct s; discriminate.
  - discriminate.
  - destruct s; [discriminate|].
    pose proof (@valid_digits _ _ _ Hv) as Hd.
    pose proof (@Zdigits2_above (Zpos m) ltac:(lia)) as Hm. cbn [Zdigits2] in Hm.
    assert (Hm53 : Zpos m < 2 ^ 53).
    { eapply Z.lt_le_trans; [exact Hm|]. apply Z.pow_le_mono_r; lia. }
    clear Hv H0 Hm Hd.
    unfold leb, SFleb, SFcompare in H1.
    unfold sub, SFsub, cond_Zopp.
    set (ez := Z.min (-52) e).
    destruct (shl_align_spec 4503599627370496 (-52) ez) as [Hsa Ha].
    destruct (shl_align_spec m e ez) as [Hsb Hb].
    cbv zeta in Hsa, Hsb, Ha, Hb. rewrite Hsa in Ha. rewrite Hsb in Hb.
    clear Hsa Hsb.
    set (a := Zpos (fst (shl_align 4503599627370496 (-52) ez))) in *.
    set (b := Zpos (fst (shl_align m e ez))) in *.
    replace (Z.min (-52) ez) with ez in Ha by (unfold ez; lia).
    replace (Z.min e ez) with ez in Hb by (unfold ez; lia).
    change (Zpos 4503599627370496) with (2 ^ 52) in *.
    rewrite <- Z.pow_add_r in Ha by (unfold ez; lia).
    replace (52 + (-52 - ez)) with (- ez) in Ha by lia.
    assert (Hab : 0 <= a - b /\ a - b < 2 ^ (- ez)).
    { destruct (Z.compare_spec e (-52)) as [He|He|He]; try discriminate.
      - assert (Hle : Zpos m <= 2 ^ 52).
        { rewrite Pos.compare_cont_spec in H1.
          destruct (Pos.compare_spec m (Z.to_pos (2 ^ 52))) as [Hc|Hc|Hc].
          - rewrite Hc. reflexivity.
          - apply Z.lt_le_incl. exact Hc.
          - change (2 ^ 52) with (Zpos 4503599627370496) in *.
            cbn [Z.to_pos] in H1.
            apply Pos.compare_gt_iff in Hc. cbn [Z.to_pos] in Hc.
            rewrite Hc in H1. discriminate H1. }
        clear H1.
        replace (e - ez) with 0 in Hb by (unfold ez; lia).
        rewrite Z.pow_0_r, Z.mul_1_r in Hb.
        replace (- ez) with 52 in * by (unfold ez; lia).
        rewrite Ha, Hb. lia.
      - clear H1.
        replace (e - ez) with 0 in Hb by (unfold ez; lia).
        rewrite Z.pow_0_r, Z.mul_1_r in Hb.
        assert (2 ^ 53 <= 2 ^ (- ez)) by (apply Z.pow_le_mono_r; unfold ez; lia).
        rewrite Ha, Hb. lia. }
    clear H1.
    assert (Hez : ez <= -52) by (unfold ez; lia).
    clearbody a b ez.
    unfold binary_normalize. destruct (a - b) as [|p|p] eqn:E; [exact I | | lia].
    apply below_of_round.
    apply (@binary_round_below false p ez 0); unfold prec, emax; try lia.
    pose proof (@Zdigits2_below (Zpos p) (- ez) ltac:(lia) ltac:(lia)) as Hp.
    cbn [Zdigits2] in Hp. lia.
Qed.

Lemma sqrt_below (x : float64) : below 1 x -> below 2 (sqrt x).
Proof.
  destruct x as [s|s| |s m e]; cbn [below]; try tauto.
  destruct s; [tauto|]. intro Hx.
  unfold sqrt, SFsqrt, SFsqrt_core_binary.
  set (d := Zdigits2 (Zpos m)).
  set (e0 := Z.min (fexp prec emax (Z.div2 (d + e + 1))) (Z.div2 e)).
  assert (Hd : d = Z.log2 (Zpos m) + 1) by (apply Zdigits2_log2; lia).
  assert (Hdx : d + e <= 1) by exact Hx.
  assert (He0 : 2 * e0 <= e).
  { assert (2 * Z.div2 e <= e) by (rewrite Z.div2_div; Z.div_mod_to_equations; lia).
    unfold e0. lia. }
  set (m' := match e - 2 * e0 with
             | 0 => Zpos m
             | Zpos _ => Z.shiftl (Zpos m) (e - 2 * e0)
             | Zneg _ => 0
             end).
  assert (Hm' : m' = Zpos m * 2 ^ (e - 2 * e0)).
  { unfold m'. destruct (e - 2 * e0) as [|p|p] eqn:E; [lia | | lia].
    apply Z.shiftl_mul_pow2. lia. }
  assert (Hp : 0 < 2 ^ (e - 2 * e0)) by (apply Z.pow_pos_nonneg; lia).
  pose proof (Z.sqrtrem_spec m' ltac:(nia)) as Hs.
  destruct (Z.sqrtrem m') as [q r].
  assert (Hq : 0 < q) by nia.
  apply below_of_round.
  apply (@binary_round_aux_below false q e0 1); unfold prec, emax; try lia.
  rewrite Zdigits2_log2 by exact Hq.
  pose proof (Z.log2_mul_below q q Hq Hq) as H1.
  assert (H2 : Z.log2 (q * q) <= Z.log2 m') by (apply Z.log2_le_mono; lia).
  assert (H3 : Z.log2 m' = e - 2 * e0 + Z.log2 (Zpos m)).
  { rewrite Hm'. apply Z.log2_mul_pow2; lia. }
  lia.
Qed.

Lemma mul_below (x y : float64) (Kx Ky : Z) :
  below Kx x -> below Ky y ->
  3 - emax - prec <= Kx + Ky -> Kx + Ky < emax - prec ->
  below (Kx + Ky + 1) (mul x y).
Proof.
  intros Hx Hy Hlo Hhi.
  destruct x as [sx|sx| |sx mx ex]; cbn [below] in Hx; try tauto;
    destruct y as [sy|sy| |sy my ey]; cbn [below] in Hy; try tauto;
    try exact I.
  destruct (@below_exponent _ _ _ _ Hx) as [-> Hex].
  destruct (@below_exponent _ _ _ _ Hy) as [-> Hey].
  cbn [below] in Hx, Hy.
  unfold mul, SFmul. cbn [xorb]. apply below_of_round.
  apply binary_round_aux_below; unfold prec, emax in *; try lia.
  rewrite Pos2Z.inj_mul.
  pose proof (@Zdigits2_mul (Zpos mx) (Zpos my) ltac:(lia) ltac:(lia)) as H.
  cbn [Zdigits2] in H. change (Zdigits2 (Zpos mx * Zpos my)) with (Zdigits2 (Zpos (mx * my))) in *.
  cbn [Zdigits2] in *. lia.
Qed.

Lemma py_int_below (K : Z) (x : float64) :
  below K x -> exists k, py_int x = Some k /\ 0 <= k.
Proof.
  destruct x as [s|s| |s m e]; cbn [below]; try tauto.
  - intros _. exists 0. split; [reflexivity | lia].
  - destruct s; [tauto|]. intros _. eexists. split; [reflexivity|].
    cbn [cond_Zopp]. destruct e as [|p|p].
    + lia.
    + assert (0 < 2 ^ Zpos p) by (apply Z.pow_pos_nonneg; lia). nia.
    + apply Z.div_pos; [lia | apply Z.pow_pos_nonneg; lia].
Qed.

(** [int(W * np.sqrt(1. - lam))] is a number, and not negative, for a
    [lam] of [[0, 1]]. *)
Lemma cut_extent_nonneg (W : Z) (lam : float64) :
  0 <= W < 2 ^ 63 ->
  is_float64 lam = true -> leb zero lam = true -> leb lam one = true ->
  exists k, py_int (mul (of_int W) (sqrt (sub one lam))) = Some k /\ 0 <= k.
Proof.
  intros HW Hv H0 H1.
  apply (@py_int_below 67).
  apply (@mul_below _ _ 64 2); unfold prec, emax; try lia.
  - apply of_int_below. exact HW.
  - apply sqrt_below, sub_one_below; assumption.
Qed.

Lemma to_pyfloat_one : to_pyfloat one = Fin 1.
Proof. vm_compute. reflexivity. Qed.

Lemma sub_one_one : to_pyfloat (sub one one) = Fin 0.
Proof. vm_compute. reflexivity. Qed.

End Float64.

(** ** Class weights: [Trainer._calculate_class_weights] *)

Module ClassWeights.
Import PyFloat Float64.

Local Open Scope Z_scope.

(** The fields of [Config] that the class weights depend on;
    [EFFECTIVE_NUM_BETA] is a Python float. *)
Record Config : Type := mkConfig {
  USE_CLASS_WEIGHTS : bool;
  CLASS_WEIGHT_METHOD : string;
  EFFECTIVE_NUM_BETA : float64;
  NUM_CLASSES : Z
}.





Section Numpy.

(** [beta ** count] is the [pow] of the C library and [weights.sum()]
    adds in an order of numpy's choosing; neither is fixed by IEEE 754,
    so both are left open. *)
Variable np_power : float64 -> Z -> float64.
Variable np_sum : list float64 -> float64.





(** *** Counting labels *)







End Numpy.

(** *** Two runs *)






End ClassWeights.

(** ** Augmentation: [_mixup], [_cutmix], [_rand_bbox] *)

Module Augment.
Import PyFloat Float64.

Local Open Scope Z_scope.

(** *** Tensors

    The entries of a tensor are floats that may be [nan] or infinite;
    the rounding of their products and sums is idealised, as in
    [PyFloat]. *)
Definition tensor1 : Type := list pyfloat.
Definition tensor2 : Type := list tensor1.
Definition tensor3 : Type := list tensor2.
Definition tensor4 : Type := list tensor3.

(** A batch of images, indexed by sample, channel and the two spatial
    dimensions.  A tensor knows its shape, also when a dimension is
    empty. *)
Record image_batch : Type := mkImages {
  size : nat * nat * nat * nat;
  entries : tensor4
}.

Definition has_size2 (w h : nat) (t : tensor2) : Prop :=
  List.length t = w /\ Forall (fun row => List.length row = h) t.
Definition has_size3 (c w h : nat) (t : tensor3) : Prop :=
  List.length t = c /\ Forall (has_size2 w h) t.
Definition has_size4 (n c w h : nat) (t : tensor4) : Prop :=
  List.length t = n /\ Forall (has_size3 c w h) t.

(** The entries of a batch fill its shape. *)
Definition well_shaped (images : image_batch) : Prop :=
  let '(n, c, w, h) := size images in has_size4 n c w h (entries images).

(** [t[b, c, x, y]] *)
Definition get4 (t : tensor4) (b c x y : nat) : pyfloat :=
  nth y (nth x (nth c (nth b t []) []) []) (Fin 0).

Fixpoint zip_with {A B C : Type} (f : A -> B -> C) (a : list A) (b : list B)
  : list C :=
  match a, b with
  | x :: a', y :: b' => f x y :: zip_with f a' b'
  | _, _ => []
  end.

(** [lam * t] and [s + t], entry by entry. *)
Definition scale1 (lam : pyfloat) (t : tensor1) : tensor1 := map (fmul lam) t.
Definition scale4 (lam : pyfloat) (t : tensor4) : tensor4 :=
  map (map (map (scale1 lam))) t.
Definition add1 (s t : tensor1) : tensor1 := zip_with fadd s t.
Definition add4 (s t : tensor4) : tensor4 :=
  zip_with (zip_with (zip_with add1)) s t.

(** [x - y] *)
Definition fsub (x y : pyfloat) : pyfloat := fadd x (fmul (Fin (-1)) y).

(** [t[index]]: the samples of [t] in the order of [index]. *)
Definition gather {A : Type} (d : A) (index : list nat) (t : list A) : list A :=
  map (fun i => nth i t d) index.

(** *** Random draws

    What the generators hand out during one call: the sample of
    [np.random.beta], a [float64]; the permutation of [torch.randperm];
    the raw integers that [np.random.randint] reduces to its range. *)
Record draws : Type := mkDraws {
  beta_sample : float64;
  randperm : list nat;
  raw_x : Z;
  raw_y : Z
}.

(** [np.random.randint(high)]: a value of [[0, high)]; it raises when
    [high <= 0]. *)
Definition randint (raw high : Z) : option Z :=
  if high <=? 0 then None else Some (raw mod high).

(** Lines 174-177, the same in [_mixup] and [_cutmix]: [alpha > 0] is
    false for [nan] too. *)
Definition draw_lam (alpha : pyfloat) (d : draws) : float64 :=
  if flt (Fin 0) alpha then beta_sample d else one.

(** *** Mixup *)

Definition _mixup (d : draws) (images : image_batch) (labels : tensor1)
           (alpha : pyfloat) : image_batch * tensor1 :=
  let lam := draw_lam alpha d in
  let index := randperm d in
  let mixed_images :=
    add4 (scale4 (to_pyfloat lam) (entries images))
         (scale4 (to_pyfloat (sub one lam)) (gather [] index (entries images))) in
  let mixed_labels :=
    add1 (scale1 (to_pyfloat lam) labels)
         (scale1 (to_pyfloat (sub one lam)) (gather (Fin 0) index labels)) in
  (mkImages (size images) mixed_images, mixed_labels).

(** Two floats that stand for the same number, or are the same special
    value. *)
Definition same_value (x y : pyfloat) : Prop :=
  match x, y with
  | NaN, NaN | PosInf, PosInf | NegInf, NegInf => True
  | Fin a, Fin b => (a == b)%Q
  | _, _ => False
  end.

(** *** CutMix *)

(** [np.clip(v, lo, hi)] *)
Definition clip (v lo hi : Z) : Z := Z.min hi (Z.max v lo).

(** [_rand_bbox(size, lam)]: [None] when it raises, which [int] does on
    [nan] (the square root of a negative number) and [randint] on an
    empty range.  [W * cut_rat] is a product of floats, truncated by
    [int]; [//] rounds down. *)
Definition _rand_bbox (d : draws) (size : nat * nat * nat * nat) (lam : float64)
  : option (Z * Z * Z * Z) :=
  let '(_, _, w, h) := size in
  let W := Z.of_nat w in
  let H := Z.of_nat h in
  let cut_rat := sqrt (sub one lam) in
  match py_int (mul (of_int W) cut_rat), py_int (mul (of_int H) cut_rat) with
  | Some cut_w, Some cut_h =>
      match randint (raw_x d) W, randint (raw_y d) H with
      | Some cx, Some cy =>
          let bbx1 := clip (cx - cut_w / 2) 0 W in
          let bby1 := clip (cy - cut_h / 2) 0 H in
          let bbx2 := clip (cx + cut_w / 2) 0 W in
          let bby2 := clip (cy + cut_h / 2) 0 H in
          Some (bbx1, bby1, bbx2, bby2)
      | _, _ => None
      end
  | _, _ => None
  end.

(** Whether [[x, y]] lies in the slice [bbx1:bbx2, bby1:bby2], for
    bounds that are not negative. *)
Definition in_box (box : Z * Z * Z * Z) (x y : nat) : bool :=
  let '(bbx1, bby1, bbx2, bby2) := box in
  (bbx1 <=? Z.of_nat x) && (Z.of_nat x <? bbx2)
  && ((bby1 <=? Z.of_nat y) && (Z.of_nat y <? bby2)).

(** [map] with the position of each entry. *)
Definition imap {A B : Type} (f : nat -> A -> B) (l : list A) : list B :=
  map (fun p => f (fst p) (snd p)) (combine (seq 0 (List.length l)) l).

(** [dst[:, bbx1:bbx2, bby1:bby2] = src[:, bbx1:bbx2, bby1:bby2]] for one
    sample, channel by channel. *)
Definition assign2 (box : Z * Z * Z * Z) (src dst : tensor2) : tensor2 :=
  imap (fun x =>
    imap (fun y v => if in_box box x y then nth y (nth x src []) (Fin 0) else v)) dst.
Definition assign3 (box : Z * Z * Z * Z) (src dst : tensor3) : tensor3 :=
  imap (fun ch => assign2 box (nth ch src [])) dst.

(** [images[:, :, bbx1:bbx2, bby1:bby2] = images[index, :, bbx1:bbx2, bby1:bby2]]:
    the right-hand side is read from the batch as it was. *)
Definition cutmix_assign (index : list nat) (box : Z * Z * Z * Z) (images : tensor4)
  : tensor4 :=
  imap (fun b => assign3 box (nth (nth b index 0%nat) images [])) images.

(** The mixing coefficient of line 202, a quotient of integers; where it
    is computed [_rand_bbox] has returned, so neither dimension is
    empty. *)
Definition area_lam (box : Z * Z * Z * Z) (size : nat * nat * nat * nat) : pyfloat :=
  let '(bbx1, bby1, bbx2, bby2) := box in
  let '(_, _, w, h) := size in
  Fin (1 - inject_Z ((bbx2 - bbx1) * (bby2 - bby1))
           / inject_Z (Z.of_nat h * Z.of_nat w))%Q.

Definition _cutmix (d : draws) (images : image_batch) (labels : tensor1)
           (alpha : pyfloat) : option (image_batch * tensor1) :=
  let lam := draw_lam alpha d in
  let index := randperm d in
  match _rand_bbox d (size images) lam with
  | None => None
  | Some box =>
      let images' :=
        mkImages (size images) (cutmix_assign index box (entries images)) in
      let lam' := area_lam box (size images') in
      let mixed_labels :=
        add1 (scale1 lam' labels)
             (scale1 (fsub (Fin 1) lam') (gather (Fin 0) index labels)) in
      Some (images', mixed_labels)
  end.

(** How many of the [w * h] positions of an image the box covers. *)
Definition replaced (box : Z * Z * Z * Z) (w h : nat) : nat :=
  List.length (filter (fun p => in_box box (fst p) (snd p))
                      (list_prod (seq 0 w) (seq 0 h))).

(** *** Tensors as objects

    The tensors that exist during a call, each at its reference.  An
    operation that builds a tensor puts it at a new reference; an
    assignment into a slice changes the tensor at its reference. *)







(** *** Entries of a mixed tensor *)

Lemma zip_with_length {A B C : Type} (f : A -> B -> C) (a : list A) (b : list B) :
  List.length (zip_with f a b) = Nat.min (List.length a) (List.length b).
Proof.
  revert b. induction a as [|x a IH]; intros [|y b]; cbn; try reflexivity.
  rewrite IH. reflexivity.
Qed.

Lemma zip_with_nth {A B C : Type} (f : A -> B -> C) (a : list A) (b : list B)
      (i : nat) (da : A) (db : B) (d : C) :
  (i < List.length a)%nat -> (i < List.length b)%nat ->
  nth i (zip_with f a b) d = f (nth i a da) (nth i b db).
Proof.
  revert b i. induction a as [|x a IH]; intros [|y b] i Ha Hb; cbn in *; try lia.
  destruct i as [|i]; [reflexivity|]. apply IH; lia.
Qed.

Lemma map_nth_in {A B : Type} (g : A -> B) (l : list A) (i : nat) (d : A) (d' : B) :
  (i < List.length l)%nat -> nth i (map g l) d' = g (nth i l d).
Proof.
  intro H. rewrite (nth_indep _ d' (g d)) by (rewrite length_map; exact H).
  apply map_nth.
Qed.

Section Mix.

Context {A B C : Type} (f : B -> B -> C) (g1 g2 : A -> B).

(** [f (g1 s) (g2 t)] entry by entry: the shape of [lam * s + mu * t] at
    each of the four levels of a batch. *)
Definition mix (s t : list A) : list C := zip_with f (map g1 s) (map g2 t).

Lemma mix_length (n : nat) (s t : list A) :
  List.length s = n -> List.length t = n -> List.length (mix s t) = n.
Proof.
  intros Hs Ht. unfold mix. rewrite zip_with_length, !length_map. lia.
Qed.

Lemma mix_nth (n i : nat) (s t : list A) (ds dt : A) (d : C) :
  List.length s = n -> List.length t = n -> (i < n)%nat ->
  nth i (mix s t) d = f (g1 (nth i s ds)) (g2 (nth i t dt)).
Proof.
  intros Hs Ht Hi. unfold mix.
  rewrite (zip_with_nth f _ _ (g1 ds) (g2 dt)) by (rewrite length_map; lia).
  rewrite !map_nth. reflexivity.
Qed.

Lemma mix_Forall (n : nat) (P : A -> Prop) (Q : C -> Prop) (s t : list A) :
  List.length s = n -> List.length t = n ->
  Forall P s -> Forall P t ->
  (forall x y, P x -> P y -> Q (f (g1 x) (g2 y))) ->
  Forall Q (mix s t).
Proof.
  intros Hs Ht HPs HPt HQ. unfold mix.
  assert (Hlen : List.length s = List.length t) by lia. clear Hs Ht.
  revert t Hlen HPt.
  induction HPs as [|x s Hx _ IH]; intros [|y t] Hlen HPt; cbn; try constructor.
  - inversion HPt; subst. apply HQ; assumption.
  - inversion HPt; subst. cbn in Hlen. apply IH; [lia | assumption].
Qed.

End Mix.

(** [lam * s + mu * t] at the four levels. *)
Definition mix1 (lam mu : pyfloat) : tensor1 -> tensor1 -> tensor1 :=
  mix fadd (fmul lam) (fmul mu).
Definition mix2 (lam mu : pyfloat) : tensor2 -> tensor2 -> tensor2 :=
  mix add1 (scale1 lam) (scale1 mu).
Definition mix3 (lam mu : pyfloat) : tensor3 -> tensor3 -> tensor3 :=
  mix (zip_with add1) (map (scale1 lam)) (map (scale1 mu)).
Definition mix4 (lam mu : pyfloat) : tensor4 -> tensor4 -> tensor4 :=
  mix (zip_with (zip_with add1)) (map (map (scale1 lam))) (map (map (scale1 mu))).

Lemma mix2_size (lam mu : pyfloat) (w h : nat) (s t : tensor2) :
  has_size2 w h s -> has_size2 w h t -> has_size2 w h (mix2 lam mu s t).
Proof.
  intros [Hs Hs'] [Ht Ht']. split; [apply mix_length; assumption|].
  apply (mix_Forall _ _ _ _ Hs Ht Hs' Ht').
  intros x y Hx Hy. apply (mix_length fadd (fmul lam) (fmul mu)); assumption.
Qed.

Lemma mix3_size (lam mu : pyfloat) (c w h : nat) (s t : tensor3) :
  has_size3 c w h s -> has_size3 c w h t -> has_size3 c w h (mix3 lam mu s t).
Proof.
  intros [Hs Hs'] [Ht Ht']. split; [apply mix_length; assumption|].
  apply (mix_Forall _ _ _ _ Hs Ht Hs' Ht').
  intros x y Hx Hy. apply (mix2_size lam mu Hx Hy).
Qed.

Lemma mix4_size (lam mu : pyfloat) (n c w h : nat) (s t : tensor4) :
  has_size4 n c w h s -> has_size4 n c w h t -> has_size4 n c w h (mix4 lam mu s t).
Proof.
  intros [Hs Hs'] [Ht Ht']. split; [apply mix_length; assumption|].
  apply (mix_Forall _ _ _ _ Hs Ht Hs' Ht').
  intros x y Hx Hy. apply (mix3_size lam mu Hx Hy).
Qed.

Lemma has_size4_nth (n c w h : nat) (t : tensor4) (b : nat) :
  has_size4 n c w h t -> (b < n)%nat -> has_size3 c w h (nth b t []).
Proof. intros [Hl Hf] Hb. apply Forall_nth; [exact Hf | lia]. Qed.

Lemma has_size3_nth (c w h : nat) (t : tensor3) (ch : nat) :
  has_size3 c w h t -> (ch < c)%nat -> has_size2 w h (nth ch t []).
Proof. intros [Hl Hf] Hb. apply Forall_nth; [exact Hf | lia]. Qed.

Lemma has_size2_nth (w h : nat) (t : tensor2) (x : nat) :
  has_size2 w h t -> (x < w)%nat -> List.length (nth x t []) = h.
Proof.
  intros [Hl Hf] Hb.
  apply (Forall_nth (fun row : tensor1 => List.length row = h)); [exact Hf | lia].
Qed.

Lemma mix4_nth (lam mu : pyfloat) (n b : nat) (s t : tensor4) :
  List.length s = n -> List.length t = n -> (b < n)%nat ->
  nth b (mix4 lam mu s t) [] = mix3 lam mu (nth b s []) (nth b t []).
Proof.
  exact (mix_nth (zip_with (zip_with add1)) (map (map (scale1 lam)))
                 (map (map (scale1 mu))) s t [] [] []).
Qed.

Lemma mix3_nth (lam mu : pyfloat) (n b : nat) (s t : tensor3) :
  List.length s = n -> List.length t = n -> (b < n)%nat ->
  nth b (mix3 lam mu s t) [] = mix2 lam mu (nth b s []) (nth b t []).
Proof.
  exact (mix_nth (zip_with add1) (map (scale1 lam)) (map (scale1 mu)) s t [] [] []).
Qed.

Lemma mix2_nth (lam mu : pyfloat) (n b : nat) (s t : tensor2) :
  List.length s = n -> List.length t = n -> (b < n)%nat ->
  nth b (mix2 lam mu s t) [] = mix1 lam mu (nth b s []) (nth b t []).
Proof.
  exact (mix_nth add1 (scale1 lam) (scale1 mu) s t [] [] []).
Qed.

Lemma mix1_nth (lam mu : pyfloat) (n b : nat) (s t : tensor1) (d0 : pyfloat) :
  List.length s = n -> List.length t = n -> (b < n)%nat ->
  nth b (mix1 lam mu s t) d0
  = fadd (fmul lam (nth b s (Fin 0))) (fmul mu (nth b t (Fin 0))).
Proof.
  exact (mix_nth fadd (fmul lam) (fmul mu) s t (Fin 0) (Fin 0) d0).
Qed.

Lemma mix4_get (lam mu : pyfloat) (n c w h : nat) (s t : tensor4) (b ch x y : nat) :
  has_size4 n c w h s -> has_size4 n c w h t ->
  (b < n)%nat -> (ch < c)%nat -> (x < w)%nat -> (y < h)%nat ->
  get4 (mix4 lam mu s t) b ch x y
  = fadd (fmul lam (get4 s b ch x y)) (fmul mu (get4 t b ch x y)).
Proof.
  intros Hs Ht Hb Hc Hx Hy. unfold get4.
  pose proof (has_size4_nth Hs Hb) as Hs3.
  pose proof (has_size4_nth Ht Hb) as Ht3.
  pose proof (has_size3_nth Hs3 Hc) as Hs2.
  pose proof (has_size3_nth Ht3 Hc) as Ht2.
  pose proof (has_size2_nth Hs2 Hx) as Hs1.
  pose proof (has_size2_nth Ht2 Hx) as Ht1.
  rewrite (mix4_nth lam mu s t (proj1 Hs) (proj1 Ht) Hb).
  rewrite (mix3_nth lam mu _ _ (proj1 Hs3) (proj1 Ht3) Hc).
  rewrite (mix2_nth lam mu _ _ (proj1 Hs2) (proj1 Ht2) Hx).
  apply (mix1_nth lam mu _ _ (Fin 0) Hs1 Ht1 Hy).
Qed.

(** *** Reordering by a permutation *)

Lemma randperm_range (index : list nat) (n : nat) :
  Permutation index (seq 0 n) ->
  List.length index = n /\ Forall (fun i => (i < n)%nat) index.
Proof.
  intro H. split.
  - rewrite (Permutation_length H). apply length_seq.
  - apply Forall_forall. intros i Hi.
    apply (Permutation_in _ H), in_seq in Hi. lia.
Qed.

Lemma gather_nth {A : Type} (d d' : A) (index : list nat) (t : list A) (b : nat) :
  (b < List.length index)%nat ->
  nth b (gather d index t) d' = nth (nth b index 0%nat) t d.
Proof.
  intro H. unfold gather.
  exact (map_nth_in (fun i => nth i t d) index 0%nat d' H).
Qed.

Lemma gather_size4 (n c w h : nat) (index : list nat) (t : tensor4) :
  has_size4 n c w h t ->
  List.length index = n -> Forall (fun i => (i < n)%nat) index ->
  has_size4 n c w h (gather [] index t).
Proof.
  intros Ht Hl Hr. split; [unfold gather; rewrite length_map; exact Hl|].
  unfold gather. apply Forall_map. eapply Forall_impl; [|exact Hr].
  intros i Hi. apply (has_size4_nth Ht Hi).
Qed.

Lemma get4_gather (index : list nat) (t : tensor4) (b ch x y : nat) :
  (b < List.length index)%nat ->
  get4 (gather [] index t) b ch x y = get4 t (nth b index 0%nat) ch x y.
Proof.
  intro H. unfold get4.
  do 3 f_equal. exact (@gather_nth tensor3 [] [] index t b H).
Qed.

(** *** Mixup mixes; without a draw it keeps what is finite *)

(** [1 * x + 0 * y] is [x] when both are numbers; [0 * inf] is [nan]. *)
Lemma unit_mix (x y : pyfloat) :
  is_finite x = true -> is_finite y = true ->
  same_value (fadd (fmul (Fin 1) x) (fmul (Fin 0) y)) x.
Proof.
  destruct x as [| |a|], y as [| |b|]; cbn; try discriminate.
  intros _ _. ring.
Qed.

Lemma draw_lam_drawn (alpha : pyfloat) (d : draws) :
  flt (Fin 0) alpha = true -> draw_lam alpha d = beta_sample d.
Proof. intro H. unfold draw_lam. rewrite H. reflexivity. Qed.

Lemma draw_lam_one (alpha : pyfloat) (d : draws) :
  flt (Fin 0) alpha = false -> draw_lam alpha d = one.
Proof. intro H. unfold draw_lam. rewrite H. reflexivity. Qed.

(** C5, for entries that are numbers: for a batch of [n] images and [n]
    labels and a permutation [index] of the samples, [_mixup] takes
    [lam] from the Beta draw when [alpha > 0] and [lam = 1] otherwise,
    and returns a batch of the same shape whose entries are
    [lam * images + (1 - lam) * images[index]], with labels
    [lam * labels + (1 - lam) * labels[index]]; when [alpha > 0] does not
    hold and no entry of the images and labels is [nan] or infinite, the
    images and labels returned have the values they had. *)
Theorem mixup_mixes (d : draws) (images : image_batch) (labels : tensor1)
        (alpha : pyfloat) (n c w h : nat) :
  has_size4 n c w h (entries images) ->
  List.length labels = n ->
  Permutation (randperm d) (seq 0 n) ->
  let index := randperm d in
  let mixed_images := fst (_mixup d images labels alpha) in
  let mixed_labels := snd (_mixup d images labels alpha) in
  exists lam : float64,
    (flt (Fin 0) alpha = true -> lam = beta_sample d) /\
    (flt (Fin 0) alpha = false -> lam = one) /\
    size mixed_images = size images /\
    has_size4 n c w h (entries mixed_images) /\
    List.length mixed_labels = n /\
    (forall b ch x y,
        (b < n)%nat -> (ch < c)%nat -> (x < w)%nat -> (y < h)%nat ->
        get4 (entries mixed_images) b ch x y
        = fadd (fmul (to_pyfloat lam) (get4 (entries images) b ch x y))
               (fmul (to_pyfloat (sub one lam))
                     (get4 (entries images) (nth b index 0%nat) ch x y))) /\
    (forall b,
        (b < n)%nat ->
        nth b mixed_labels (Fin 0)
        = fadd (fmul (to_pyfloat lam) (nth b labels (Fin 0)))
               (fmul (to_pyfloat (sub one lam))
                     (nth (nth b index 0%nat) labels (Fin 0)))) /\
    (flt (Fin 0) alpha = false ->
     (forall b ch x y,
         (b < n)%nat -> (ch < c)%nat -> (x < w)%nat -> (y < h)%nat ->
         is_finite (get4 (entries images) b ch x y) = true) ->
     (forall b, (b < n)%nat -> is_finite (nth b labels (Fin 0)) = true) ->
     (forall b ch x y,
         (b < n)%nat -> (ch < c)%nat -> (x < w)%nat -> (y < h)%nat ->
         same_value (get4 (entries mixed_images) b ch x y)
                    (get4 (entries images) b ch x y)) /\
     (forall b, (b < n)%nat ->
                same_value (nth b mixed_labels (Fin 0)) (nth b labels (Fin 0)))).
Proof.
  intros Himg Hlbl Hperm idx mixed_images mixed_labels.
  destruct (@randperm_range idx n Hperm) as [Hlen Hrange].
  pose proof (@gather_size4 n c w h idx (entries images) Himg Hlen Hrange) as Hgat.
  assert (Hglen : List.length (gather (Fin 0) idx labels) = n)
    by (unfold gather; rewrite length_map; exact Hlen).
  set (lam := draw_lam alpha d).
  set (L := to_pyfloat lam). set (M := to_pyfloat (sub one lam)).
  assert (Hmi : entries mixed_images
                = mix4 L M (entries images) (gather [] idx (entries images)))
    by reflexivity.
  assert (Hml : mixed_labels = mix1 L M labels (gather (Fin 0) idx labels))
    by reflexivity.
  assert (Hsize : has_size4 n c w h (entries mixed_images))
    by (rewrite Hmi; apply mix4_size; assumption).
  assert (Hsize1 : List.length mixed_labels = n)
    by (rewrite Hml; apply mix_length; assumption).
  assert (Hget : forall b ch x y,
             (b < n)%nat -> (ch < c)%nat -> (x < w)%nat -> (y < h)%nat ->
             get4 (entries mixed_images) b ch x y
             = fadd (fmul L (get4 (entries images) b ch x y))
                    (fmul M (get4 (entries images) (nth b idx 0%nat) ch x y))).
  { intros b ch x y Hb Hc Hx Hy.
    rewrite Hmi, (@mix4_get L M n c w h _ _ b ch x y Himg Hgat Hb Hc Hx Hy).
    rewrite get4_gather by lia. reflexivity. }
  assert (Hgetl : forall b, (b < n)%nat ->
             nth b mixed_labels (Fin 0)
             = fadd (fmul L (nth b labels (Fin 0)))
                    (fmul M (nth (nth b idx 0%nat) labels (Fin 0)))).
  { intros b Hb.
    rewrite Hml, (@mix1_nth L M n b labels _ (Fin 0) Hlbl Hglen Hb).
    rewrite (@gather_nth pyfloat (Fin 0) (Fin 0) idx labels b) by lia. reflexivity. }
  assert (Hidx : forall b, (b < n)%nat -> (nth b idx 0%nat < n)%nat).
  { intros b Hb. rewrite Forall_forall in Hrange. apply Hrange, nth_In. lia. }
  exists lam.
  split; [apply draw_lam_drawn|]. split; [apply draw_lam_one|].
  split; [reflexivity|]. split; [exact Hsize|]. split; [exact Hsize1|].
  split; [exact Hget|]. split; [exact Hgetl|].
  intros Ha Hfin Hfinl.
  assert (HL : L = Fin 1)
    by (unfold L, lam; rewrite (@draw_lam_one alpha d Ha); exact to_pyfloat_one).
  assert (HM : M = Fin 0)
    by (unfold M, lam; rewrite (@draw_lam_one alpha d Ha); exact sub_one_one).
  split.
  - intros b ch x y Hb Hc Hx Hy.
    rewrite (Hget b ch x y Hb Hc Hx Hy), HL, HM.
    apply unit_mix; apply Hfin; auto.
  - intros b Hb. rewrite (Hgetl b Hb), HL, HM.
    apply unit_mix; apply Hfinl; auto.
Qed.

(** A [lam] of [0.25], as a float. *)
Definition quarter : float64 := S754_finite false 4503599627370496 (-54).

Lemma mixup_mixes_witness :
  let d := mkDraws quarter [1; 0]%nat 0 0 in
  let images := mkImages (2, 1, 1, 1)%nat [[[[Fin 1]]]; [[[Fin 3]]]] in
  let labels := [Fin 0; Fin 2] in
  has_size4 2 1 1 1 (entries images) /\
  List.length labels = 2%nat /\
  Permutation (randperm d) (seq 0 2) /\
  same_value (get4 (entries (fst (_mixup d images labels (Fin (1 # 5))))) 0 0 0 0)
             (Fin (5 # 2)) /\
  same_value (nth 1 (snd (_mixup d images labels (Fin 0))) (Fin 0)) (Fin 2).
Proof.
  intros d images labels.
  assert (Himg : has_size4 2 1 1 1 (entries images)).
  { unfold has_size4, has_size3, has_size2, images. cbn.
    repeat (split || constructor). }
  assert (Hlbl : List.length labels = 2%nat) by reflexivity.
  assert (Hperm : Permutation (randperm d) (seq 0 2)) by apply perm_swap.
  split; [exact Himg|]. split; [exact Hlbl|]. split; [exact Hperm|]. split.
  - destruct (@mixup_mixes d images labels (Fin (1 # 5)) 2 1 1 1 Himg Hlbl Hperm)
      as (lam & Hlam & _ & _ & _ & _ & Hget & _).
    rewrite Hget by lia. rewrite Hlam by reflexivity. vm_compute. reflexivity.
  - destruct (@mixup_mixes d images labels (Fin 0) 2 1 1 1 Himg Hlbl Hperm)
      as (lam & _ & _ & _ & _ & _ & _ & _ & Hid).
    destruct Hid as [_ H2]; [reflexivity | | |].
    + intros [|[|b]] [|ch] [|x] [|y]; intros; try lia; reflexivity.
    + intros [|[|b]]; intros; try lia; reflexivity.
    + apply (H2 1%nat). lia.
Defined.

(** C5 as stated fails on a batch with an infinite entry: without a
    draw the second image is [1 * 1 + 0 * inf], which is [nan]. *)
Lemma mixup_infinite_entry :
  let d := mkDraws quarter [1; 0]%nat 0 0 in
  let images := mkImages (2, 1, 1, 1)%nat [[[[PosInf]]]; [[[Fin 1]]]] in
  let labels := [Fin 0; Fin 2] in
  has_size4 2 1 1 1 (entries images) /\
  List.length labels = 2%nat /\
  Permutation (randperm d) (seq 0 2) /\
  flt (Fin 0) (Fin 0) = false /\
  get4 (entries images) 1 0 0 0 = Fin 1 /\
  get4 (entries (fst (_mixup d images labels (Fin 0)))) 1 0 0 0 = NaN /\
  fst (_mixup d images labels (Fin 0)) <> images.
Proof.
  intros d images labels.
  split; [unfold has_size4, has_size3, has_size2; cbn; repeat (split || constructor)|].
  split; [reflexivity|]. split; [apply perm_swap|]. split; [reflexivity|].
  split; [reflexivity|].
  assert (H : get4 (entries (fst (_mixup d images labels (Fin 0)))) 1 0 0 0 = NaN)
    by (vm_compute; reflexivity).
  split; [exact H|].
  intro E. rewrite E in H. discriminate H.
Qed.

(** *** The box lies in the image *)

Lemma randint_range (raw high : Z) :
  0 < high -> exists v, randint raw high = Some v /\ 0 <= v < high.
Proof.
  intro H. unfold randint. destruct (Z.leb_spec high 0); [lia|].
  eexists. split; [reflexivity|]. apply Z.mod_pos_bound. exact H.
Qed.

Lemma clip_bounds (v hi : Z) : 0 <= hi -> 0 <= clip v 0 hi <= hi.
Proof. unfold clip. lia. Qed.

Lemma clip_mono (u v hi : Z) : u <= v -> clip u 0 hi <= clip v 0 hi.
Proof. unfold clip. lia. Qed.

(** The box of [_rand_bbox], for cut extents that are not negative. *)
Lemma rand_bbox_returns (d : draws) (n c w h : nat) (lam : float64) :
  (1 <= w)%nat -> (1 <= h)%nat ->
  Z.of_nat w < 2 ^ 63 -> Z.of_nat h < 2 ^ 63 ->
  is_float64 lam = true -> leb zero lam = true -> leb lam one = true ->
  exists bbx1 bby1 bbx2 bby2,
    _rand_bbox d (n, c, w, h) lam = Some (bbx1, bby1, bbx2, bby2) /\
    0 <= bbx1 <= bbx2 /\ bbx2 <= Z.of_nat w /\
    0 <= bby1 <= bby2 /\ bby2 <= Z.of_nat h.
Proof.
  intros Hw Hh Hw63 Hh63 Hv H0 H1. unfold _rand_bbox.
  destruct (@cut_extent_nonneg (Z.of_nat w) lam) as (cut_w & -> & Hcw);
    [lia | assumption ..|].
  destruct (@cut_extent_nonneg (Z.of_nat h) lam) as (cut_h & -> & Hch);
    [lia | assumption ..|].
  destruct (@randint_range (raw_x d) (Z.of_nat w)) as (cx & -> & Hcx); [lia|].
  destruct (@randint_range (raw_y d) (Z.of_nat h)) as (cy & -> & Hcy); [lia|].
  assert (Hcw2 : 0 <= cut_w / 2) by (apply Z.div_pos; lia).
  assert (Hch2 : 0 <= cut_h / 2) by (apply Z.div_pos; lia).
  pose proof (@clip_bounds (cx - cut_w / 2) (Z.of_nat w) ltac:(lia)).
  pose proof (@clip_bounds (cx + cut_w / 2) (Z.of_nat w) ltac:(lia)).
  pose proof (@clip_bounds (cy - cut_h / 2) (Z.of_nat h) ltac:(lia)).
  pose proof (@clip_bounds (cy + cut_h / 2) (Z.of_nat h) ltac:(lia)).
  pose proof (@clip_mono (cx - cut_w / 2) (cx + cut_w / 2) (Z.of_nat w) ltac:(lia)).
  pose proof (@clip_mono (cy - cut_h / 2) (cy + cut_h / 2) (Z.of_nat h) ltac:(lia)).
  do 4 eexists. split; [reflexivity|]. lia.
Qed.

(** *** Counting the positions in the box *)

Lemma filter_row {A B : Type} (p : A -> bool) (q : B -> bool) (a : A) (l' : list B) :
  filter (fun xy => p (fst xy) && q (snd xy)) (map (fun y => (a, y)) l')
  = if p a then map (fun y => (a, y)) (filter q l') else [].
Proof.
  induction l' as [|b l' IH]; [destruct (p a); reflexivity|].
  cbn [map filter fst snd]. rewrite IH.
  destruct (p a), (q b); reflexivity.
Qed.

Lemma filter_prod {A B : Type} (p : A -> bool) (q : B -> bool)
      (l : list A) (l' : list B) :
  filter (fun xy => p (fst xy) && q (snd xy)) (list_prod l l')
  = list_prod (filter p l) (filter q l').
Proof.
  induction l as [|a l IH]; [reflexivity|].
  cbn [list_prod]. rewrite filter_app, IH, filter_row.
  cbn [filter]. destruct (p a); reflexivity.
Qed.

Lemma count_slice (lo hi : Z) (start len : nat) :
  List.length (filter (fun x => (lo <=? Z.of_nat x) && (Z.of_nat x <? hi))
                      (seq start len))
  = Z.to_nat (Z.min hi (Z.of_nat (start + len)) - Z.max lo (Z.of_nat start)).
Proof.
  revert start. induction len as [|len IH]; intro start.
  - cbn. lia.
  - cbn [seq filter]. specialize (IH (S start)).
    destruct (Z.leb_spec lo (Z.of_nat start)), (Z.ltb_spec (Z.of_nat start) hi);
      cbn [andb List.length]; rewrite IH; lia.
Qed.

Lemma replaced_area (bbx1 bby1 bbx2 bby2 : Z) (w h : nat) :
  0 <= bbx1 <= bbx2 -> bbx2 <= Z.of_nat w ->
  0 <= bby1 <= bby2 -> bby2 <= Z.of_nat h ->
  Z.of_nat (replaced (bbx1, bby1, bbx2, bby2) w h)
  = (bbx2 - bbx1) * (bby2 - bby1).
Proof.
  intros Hx Hxw Hy Hyh. unfold replaced, in_box.
  rewrite (filter_prod
             (fun x => (bbx1 <=? Z.of_nat x) && (Z.of_nat x <? bbx2))
             (fun y => (bby1 <=? Z.of_nat y) && (Z.of_nat y <? bby2))).
  rewrite length_prod, !count_slice, Nat2Z.inj_mul. f_equal; lia.
Qed.

Lemma in_box_in_image (bbx1 bby1 bbx2 bby2 : Z) (w h x y : nat) :
  bbx2 <= Z.of_nat w -> bby2 <= Z.of_nat h ->
  in_box (bbx1, bby1, bbx2, bby2) x y = true -> (x < w)%nat /\ (y < h)%nat.
Proof.
  intros Hw Hh H. unfold in_box in H.
  apply andb_prop in H. destruct H as [Hx Hy].
  apply andb_prop in Hx. apply andb_prop in Hy.
  destruct Hx as [_ Hx], Hy as [_ Hy].
  apply Z.ltb_lt in Hx, Hy. lia.
Qed.

(** The share of the area outside a box of [area] positions. *)
Lemma share_outside (area total : Z) :
  0 <= area <= total -> 0 < total ->
  let lam := (1 - inject_Z area / inject_Z total)%Q in
  (0 <= lam <= 1)%Q /\ (lam == inject_Z (total - area) / inject_Z total)%Q.
Proof.
  intros Ha Ht lam.
  assert (HT : (0 < inject_Z total)%Q) by (rewrite (Zlt_Qlt 0 total) in Ht; exact Ht).
  assert (HA : (0 <= inject_Z area <= inject_Z total)%Q).
  { split; [rewrite (Zle_Qle 0 area) in Ha; tauto|].
    rewrite (Zle_Qle area total) in Ha; tauto. }
  assert (Hd : (0 <= inject_Z area / inject_Z total <= 1)%Q).
  { split.
    - apply Qle_shift_div_l; [exact HT|]. lra.
    - apply Qle_shift_div_r; [exact HT|]. lra. }
  split; [unfold lam; lra|].
  unfold lam. unfold Z.sub. rewrite inject_Z_plus, inject_Z_opp. field. lra.
Qed.

(** C6, for an image with at least one row and one column: for every
    [lam], a [float64] of [[0, 1]], [_rand_bbox] returns a box with
    [0 <= bbx1 <= bbx2 <= w] and [0 <= bby1 <= bby2 <= h], so every
    position the slices of [_cutmix] name is a position of the image;
    [_cutmix], when it draws this [lam], returns the batch with that box
    assigned and the labels mixed with the coefficient
    [1 - (bbx2 - bbx1) * (bby2 - bby1) / (w * h)] of that box, which lies
    in [[0, 1]] and is the share of the [w * h] positions that the box
    does not cover. *)
Theorem rand_bbox_in_bounds (d : draws) (images : image_batch) (labels : tensor1)
        (alpha : pyfloat) (n c w h : nat) (lam : float64) :
  size images = (n, c, w, h) ->
  (1 <= w)%nat -> (1 <= h)%nat ->
  Z.of_nat w < 2 ^ 63 -> Z.of_nat h < 2 ^ 63 ->
  is_float64 lam = true -> leb zero lam = true -> leb lam one = true ->
  exists bbx1 bby1 bbx2 bby2 lam',
    let box := (bbx1, bby1, bbx2, bby2) in
    _rand_bbox d (n, c, w, h) lam = Some box /\
    0 <= bbx1 <= bbx2 /\ bbx2 <= Z.of_nat w /\
    0 <= bby1 <= bby2 /\ bby2 <= Z.of_nat h /\
    (forall x y, in_box box x y = true -> (x < w)%nat /\ (y < h)%nat) /\
    area_lam box (n, c, w, h) = Fin lam' /\
    (0 <= lam' <= 1)%Q /\
    (replaced box w h <= w * h)%nat /\
    (lam' == inject_Z (Z.of_nat (w * h - replaced box w h))
             / inject_Z (Z.of_nat (w * h)))%Q /\
    (draw_lam alpha d = lam ->
     _cutmix d images labels alpha
     = Some (mkImages (n, c, w, h)
                      (cutmix_assign (randperm d) box (entries images)),
             add1 (scale1 (Fin lam') labels)
                  (scale1 (fsub (Fin 1) (Fin lam'))
                          (gather (Fin 0) (randperm d) labels)))).
Proof.
  intros Hsize Hw Hh Hw63 Hh63 Hv H0 H1.
  destruct (@rand_bbox_returns d n c w h lam Hw Hh Hw63 Hh63 Hv H0 H1)
    as (bbx1 & bby1 & bbx2 & bby2 & Hbox & Hx & Hxw & Hy & Hyh).
  pose proof (@replaced_area bbx1 bby1 bbx2 bby2 w h Hx Hxw Hy Hyh) as Harea.
  set (area := (bbx2 - bbx1) * (bby2 - bby1)) in *.
  set (total := Z.of_nat h * Z.of_nat w).
  assert (Hale : 0 <= area <= total) by (unfold area, total; nia).
  assert (Hpos : 0 < total) by (unfold total; nia).
  assert (Hrep : (replaced (bbx1, bby1, bbx2, bby2) w h <= w * h)%nat)
    by (unfold total in Hale; nia).
  destruct (@share_outside area total Hale Hpos) as [Hunit Hshare].
  exists bbx1, bby1, bbx2, bby2, (1 - inject_Z area / inject_Z total)%Q.
  cbv zeta.
  split; [exact Hbox|].
  split; [exact Hx|]. split; [exact Hxw|]. split; [exact Hy|]. split; [exact Hyh|].
  split; [intros x y; apply in_box_in_image; assumption|].
  split; [reflexivity|]. split; [exact Hunit|]. split; [exact Hrep|]. split.
  - rewrite Hshare.
    replace (Z.of_nat (w * h - replaced (bbx1, bby1, bbx2, bby2) w h))
      with (total - area) by (unfold total; nia).
    replace (Z.of_nat (w * h)) with total by (unfold total; nia).
    reflexivity.
  - intro Hdraw. unfold _cutmix. rewrite Hsize, Hdraw, Hbox. reflexivity.
Qed.

(** The doubles nearest to [0.75] and to [0.64]. *)
Definition three_quarters : float64 := S754_finite false 6755399441055744 (-53).
Definition lam_064 : float64 := S754_finite false 5764607523034235 (-53).

Lemma rand_bbox_in_bounds_witness :
  let d := mkDraws three_quarters [1; 0]%nat 5 7 in
  let images :=
    mkImages (2, 1, 2, 2)%nat
             [[[[Fin 1; Fin 2]; [Fin 3; Fin 4]]]; [[[Fin 5; Fin 6]; [Fin 7; Fin 8]]]] in
  let labels := [Fin 0; Fin 1] in
  let alpha := Fin (1 # 5) in
  size images = (2, 1, 2, 2)%nat /\
  (1 <= 2)%nat /\ Z.of_nat 2 < 2 ^ 63 /\
  is_float64 three_quarters = true /\
  leb zero three_quarters = true /\ leb three_quarters one = true /\
  draw_lam alpha d = three_quarters /\
  exists bbx1 bby1 bbx2 bby2 out,
    _rand_bbox d (2, 1, 2, 2)%nat three_quarters = Some (bbx1, bby1, bbx2, bby2) /\
    0 <= bbx1 <= bbx2 /\ bbx2 <= Z.of_nat 2 /\
    _cutmix d images labels alpha = Some out.
Proof.
  intros d images labels alpha.
  assert (Hs : size images = (2, 1, 2, 2)%nat) by reflexivity.
  assert (H2 : (1 <= 2)%nat) by lia.
  assert (H63 : Z.of_nat 2 < 2 ^ 63) by (cbn; lia).
  assert (Hv : is_float64 three_quarters = true) by reflexivity.
  assert (H0 : leb zero three_quarters = true) by reflexivity.
  assert (H1 : leb three_quarters one = true) by reflexivity.
  assert (Hd : draw_lam alpha d = three_quarters) by reflexivity.
  split; [exact Hs|]. split; [exact H2|]. split; [exact H63|].
  split; [exact Hv|]. split; [exact H0|]. split; [exact H1|]. split; [exact Hd|].
  destruct (@rand_bbox_in_bounds d images labels alpha 2 1 2 2 three_quarters
              Hs H2 H2 H63 H63 Hv H0 H1)
    as (bbx1 & bby1 & bbx2 & bby2 & lam' & Hbox & Hx & Hxw & _ & _ & _ & _ & _ & _ & _
        & Hcut).
  exists bbx1, bby1, bbx2, bby2. eexists.
  split; [exact Hbox|]. split; [exact Hx|]. split; [exact Hxw|]. exact (Hcut Hd).
Defined.

(** C6 as stated fails on images without a row: [np.random.randint(0)]
    raises, so neither [_rand_bbox] nor [_cutmix] returns. *)
Lemma rand_bbox_empty_image :
  let d := mkDraws three_quarters [0]%nat 5 7 in
  let images := mkImages (1, 1, 0, 4)%nat [[[]]] in
  well_shaped images /\
  is_float64 three_quarters = true /\
  leb zero three_quarters = true /\ leb three_quarters one = true /\
  _rand_bbox d (size images) three_quarters = None /\
  _cutmix d images [Fin 0] (Fin (1 # 5)) = None.
Proof.
  intros d images.
  split; [unfold well_shaped, has_size4, has_size3, has_size2; cbn;
          repeat (split || constructor)|].
  repeat split; reflexivity.
Qed.

(** Where rounding shows: for the double nearest to [0.64] and an image
    of 10 by 10, [1. - lam] rounds to [0.36], its square root to [0.6]
    and the product to [6.0], so the cut is 6 wide, not 5. *)
Lemma rand_bbox_rounds :
  _rand_bbox (mkDraws lam_064 [] 5 5) (1, 1, 10, 10)%nat lam_064 = Some (2, 2, 8, 8).
Proof. vm_compute. reflexivity. Qed.

(** *** What the assignment of CutMix writes *)

Lemma imap_length {A B : Type} (f : nat -> A -> B) (l : list A) :
  List.length (imap f l) = List.length l.
Proof.
  unfold imap. rewrite length_map, length_combine, length_seq. lia.
Qed.


Lemma imap_Forall {A B : Type} (f : nat -> A -> B) (P : A -> Prop) (Q : B -> Prop)
      (l : list A) :
  Forall P l -> (forall i x, P x -> Q (f i x)) -> Forall Q (imap f l).
Proof.
  intros HP HQ. unfold imap. apply Forall_map.
  apply Forall_forall. intros [i x] Hin. cbn.
  apply HQ. rewrite Forall_forall in HP. apply HP.
  exact (in_combine_r _ _ _ _ Hin).
Qed.

Lemma cutmix_assign_size (index : list nat) (box : Z * Z * Z * Z)
      (n c w h : nat) (images : tensor4) :
  has_size4 n c w h images -> has_size4 n c w h (cutmix_assign index box images).
Proof.
  intros [Hn Himg]. unfold cutmix_assign.
  split; [rewrite imap_length; exact Hn|].
  apply (imap_Forall _ _ Himg). intros b sample [Hc Hs]. unfold assign3.
  split; [rewrite imap_length; exact Hc|].
  apply (imap_Forall _ _ Hs). intros ch channel [Hw Hch]. unfold assign2.
  split; [rewrite imap_length; exact Hw|].
  apply (imap_Forall _ _ Hch). intros x row Hrow.
  rewrite imap_length. exact Hrow.
Qed.



(** *** The tensors before and after a call *)







End Augment.
